(** * A shallow embedding of the Apito data provider (src/src/provider.ts)

    The provider turns refine's CRUD calls into GraphQL documents and
    normalises the backend's answers and failures.  This development embeds
    the parts of [provider.ts] that decide the error contract, the filter
    and sorter compilation of [getList], the synthesised [getList] document,
    and the response handling of [getList], [getOne], [create],
    [createMany], [update], [deleteOne] and [custom].

    JavaScript values are the inductive [jsval]; numbers are integers.
    Objects are association lists in insertion order with unique keys,
    written through [set_prop], which replaces an existing key in place and
    appends a new one, as a JS property assignment does.  Strings are Rocq
    strings of ASCII characters, and [toUpperCase]/[toLowerCase] act on the
    ASCII letters.  The transport client and the pluralisation library are
    external collaborators: they are Section variables. *)

From Stdlib Require Import String Ascii ZArith List Bool Lia.
From Stdlib Require Import Numbers.DecimalString.
Import ListNotations.
Open Scope string_scope.
Set Warnings "-register-all".

(** ** JavaScript values *)

Inductive jsval : Type :=
| JUndef
| JNull
| JBool (b : bool)
| JNum (z : Z)
| JStr (s : string)
| JArr (l : list jsval)
| JObj (kvs : list (string * jsval)).

(** JS truthiness: [undefined], [null], [false], [0] and [""] are falsy. *)
Definition truthy (v : jsval) : bool :=
  match v with
  | JUndef | JNull => false
  | JBool b => b
  | JNum z => negb (Z.eqb z 0)
  | JStr s => negb (String.eqb s "")
  | JArr _ | JObj _ => true
  end.

Definition is_nullish (v : jsval) : bool :=
  match v with JUndef | JNull => true | _ => false end.

Definition is_undef (v : jsval) : bool :=
  match v with JUndef => true | _ => false end.

(** [a || b] *)
Definition js_or (a b : jsval) : jsval := if truthy a then a else b.

Definition Z_to_string (z : Z) : string :=
  NilEmpty.string_of_int (Z.to_int z).

Definition nat_to_string (n : nat) : string := Z_to_string (Z.of_nat n).

(** Own property lookup of an object; missing keys read as [undefined]. *)
Fixpoint assoc_get (kvs : list (string * jsval)) (k : string) : jsval :=
  match kvs with
  | [] => JUndef
  | (k', v) :: rest => if String.eqb k k' then v else assoc_get rest k
  end.

Fixpoint index_get {A} (l : list A) (i : nat) (k : string) : option A :=
  match l with
  | [] => None
  | x :: rest =>
      if String.eqb k (nat_to_string i) then Some x else index_get rest (S i) k
  end.

Fixpoint string_chars (s : string) : list string :=
  match s with
  | EmptyString => []
  | String c rest => String c EmptyString :: string_chars rest
  end.

(** Property read [v[k]]: objects by key, arrays and strings by index;
    other primitives have none of the named properties the source reads. *)
Definition get_field (v : jsval) (k : string) : jsval :=
  match v with
  | JObj kvs => assoc_get kvs k
  | JArr l => match index_get l 0 k with Some x => x | None => JUndef end
  | JStr s => match index_get (string_chars s) 0 k with
              | Some c => JStr c | None => JUndef end
  | _ => JUndef
  end.

(** [obj[k] = v]: replace in place, or append a new key. *)
Fixpoint set_prop (kvs : list (string * jsval)) (k : string) (v : jsval)
  : list (string * jsval) :=
  match kvs with
  | [] => [(k, v)]
  | (k', v') :: rest =>
      if String.eqb k k' then (k', v) :: rest else (k', v') :: set_prop rest k v
  end.

(** [Object.assign(target, source)] for an object source. *)
Definition assign (target src : list (string * jsval)) : list (string * jsval) :=
  fold_left (fun acc kv => set_prop acc (fst kv) (snd kv)) src target.

Fixpoint indices {A} (l : list A) (i : nat) : list string :=
  match l with
  | [] => []
  | _ :: rest => nat_to_string i :: indices rest (S i)
  end.

(** [Object.keys(v)] *)
Definition obj_keys (v : jsval) : list string :=
  match v with
  | JObj kvs => map fst kvs
  | JArr l => indices l 0
  | JStr s => indices (string_chars s) 0
  | _ => []
  end.

Fixpoint join (sep : string) (l : list string) : string :=
  match l with
  | [] => ""
  | [x] => x
  | x :: rest => x ++ sep ++ join sep rest
  end.

(** [String(v)], as a template literal renders a value. *)
Fixpoint to_str (v : jsval) : string :=
  match v with
  | JUndef => "undefined"
  | JNull => "null"
  | JBool true => "true"
  | JBool false => "false"
  | JNum z => Z_to_string z
  | JStr s => s
  | JArr l => join "," (map (fun x => match x with
                                     | JUndef | JNull => ""
                                     | _ => to_str x end) l)
  | JObj _ => "[object Object]"
  end.

(** An element as [Array.prototype.join] renders it. *)
Definition join_elem (v : jsval) : string :=
  match v with JUndef | JNull => "" | _ => to_str v end.

(** ** ASCII string operations *)

Definition lower_ascii (c : ascii) : ascii :=
  let n := nat_of_ascii c in
  if (65 <=? n)%nat && (n <=? 90)%nat then ascii_of_nat (n + 32)%nat else c.

Definition upper_ascii (c : ascii) : ascii :=
  let n := nat_of_ascii c in
  if (97 <=? n)%nat && (n <=? 122)%nat then ascii_of_nat (n - 32)%nat else c.

Fixpoint map_string (f : ascii -> ascii) (s : string) : string :=
  match s with
  | EmptyString => EmptyString
  | String c rest => String (f c) (map_string f rest)
  end.

(** [s.toLowerCase()] and [s.toUpperCase()] *)
Definition toLowerCase (s : string) : string := map_string lower_ascii s.
Definition toUpperCase (s : string) : string := map_string upper_ascii s.

(** [s.startsWith(p)] *)
Definition startsWith (s p : string) : bool := String.prefix p s.

(** [s.includes(sub)] *)
Fixpoint includes (s sub : string) : bool :=
  String.prefix sub s ||
  match s with
  | EmptyString => false
  | String _ rest => includes rest sub
  end.

(** [s.replace(p, "")] with a string pattern: drops the first occurrence. *)
Fixpoint replace_first (s p : string) : string :=
  if String.prefix p s then substring (String.length p) (String.length s) s
  else match s with
       | EmptyString => EmptyString
       | String c rest => String c (replace_first rest p)
       end.

(** [s.split(".")] *)
Fixpoint split_dot_aux (s acc : string) : list string :=
  match s with
  | EmptyString => [acc]
  | String c rest =>
      if Ascii.eqb c "."%char then acc :: split_dot_aux rest ""
      else split_dot_aux rest (acc ++ String c EmptyString)
  end.

Definition split_dot (s : string) : list string := split_dot_aux s "".

(** ** Effects of an operation

    An operation body either finishes with a value or throws a JS value
    (an awaited promise that rejects throws too).  Along the way it may
    invoke the session-expiry callback, which the log records. *)

Inductive event : Type := SessionExpired.

Inductive exn (A : Type) : Type :=
| Ok (a : A)
| Throw (e : jsval).
Arguments Ok {A} a.
Arguments Throw {A} e.

Definition M (A : Type) : Type := list event * exn A.

Definition ret {A} (a : A) : M A := ([], Ok a).
Definition throw {A} (e : jsval) : M A := ([], Throw e).

Definition bind {A B} (m : M A) (k : A -> M B) : M B :=
  match m with
  | (log, Ok a) => let (log', r) := k a in (app log log', r)
  | (log, Throw e) => (log, Throw e)
  end.

Notation "x <- m ;; k" := (bind m (fun x => k))
  (at level 61, m at next level, right associativity).
Notation "' pat <- m ;; k" := (bind m (fun x => match x with pat => k end))
  (at level 61, pat pattern, m at next level, right associativity).

(** A [TypeError] raised by the JS engine, e.g. on a property read of
    [null] or a call of a method the value does not have. *)
Definition type_error (msg : string) : jsval :=
  JObj [("name", JStr "TypeError"); ("message", JStr msg)].

(** The [TypeError] of reading property [prop] of a nullish [v]: the
    engine's message names the value, [null] or [undefined]. *)
Definition read_error (v : jsval) (prop : string) : jsval :=
  type_error ("Cannot read properties of " ++ to_str v ++ " (reading '" ++ prop ++ "')").

(** The settled state of the promise an [async] operation returns. *)
Inductive outcome : Type :=
| Resolved (v : jsval)
| Rejected (v : jsval).

(** ** The error classifier [handleGraphQLError] *)

(** urql's [CombinedError]: the network error is an [Error] whose
    [statusCode] and [status] the provider reads as [any]; every GraphQL
    error carries a string [message]. *)
Record NetworkError : Type := {
  ne_message : string;
  ne_statusCode : jsval;
  ne_status : jsval
}.

Record CombinedError : Type := {
  ce_message : string;
  ce_networkError : option NetworkError;
  ce_graphQLErrors : list string
}.

Record HttpError : Type := {
  he_message : string;
  he_statusCode : jsval
}.

Definition http_js (h : HttpError) : jsval :=
  JObj [("message", JStr (he_message h)); ("statusCode", he_statusCode h)].

(** [onTokenExpired?.()]: [cb] tells whether a callback was supplied. *)
Definition call_opt (cb : bool) : list event :=
  if cb then [SessionExpired] else [].

(** [networkError.statusCode || networkError.status] *)
Definition embedded_status (ne : NetworkError) : jsval :=
  js_or (ne_statusCode ne) (ne_status ne).

(** [statusCode === 403 || statusCode === 401] *)
Definition is_auth_status (v : jsval) : bool :=
  match v with
  | JNum z => Z.eqb z 403 || Z.eqb z 401
  | _ => false
  end.

Definition auth_keywords : list string :=
  ["unauthorized"; "forbidden"; "token"; "authentication"; "authorization"].

(** The predicate of [error.graphQLErrors.some(...)]. *)
Definition has_auth_keyword (msg : string) : bool :=
  existsb (fun kw => includes (toLowerCase msg) kw) auth_keywords.

Definition handleGraphQLError (error : option CombinedError) (onTokenExpired : bool)
  : list event * HttpError :=
  match error with
  | None => ([], {| he_message := "Unknown error occurred"; he_statusCode := JNum 500 |})
  | Some err =>
      match ce_networkError err with
      | Some ne =>
          let statusCode := embedded_status ne in
          if is_auth_status statusCode then
            (call_opt onTokenExpired,
             {| he_message := "Token expired. Please login again.";
                he_statusCode := JNum 403 |})
          else
            ([], {| he_message := "Network error: " ++ ne_message ne;
                    he_statusCode := js_or statusCode (JNum 503) |})
      | None =>
          match ce_graphQLErrors err with
          | _ :: _ =>
              if existsb has_auth_keyword (ce_graphQLErrors err) then
                (call_opt onTokenExpired,
                 {| he_message := "Authentication failed. Please login again.";
                    he_statusCode := JNum 403 |})
              else
                ([], {| he_message := join ", " (ce_graphQLErrors err);
                        he_statusCode := JNum 400 |})
          | [] =>
              ([], {| he_message :=
                        if String.eqb (ce_message err) "" then
                          "An error occurred during the GraphQL operation"
                        else ce_message err;
                      he_statusCode := JNum 400 |})
          end
      end
  end.

(** [return Promise.reject(handleGraphQLError(error, cb))] *)
Definition reject_classified (error : CombinedError) (cb : bool) : M outcome :=
  let (log, h) := handleGraphQLError (Some error) cb in
  (log, Ok (Rejected (http_js h))).

(** ** The operation boundary

    Every public operation wraps its body in the same [catch]:
<<
      } catch (error) {
        if ((error as any).statusCode !== undefined) {
          return Promise.reject(error);
        }
        const httpError: HttpError = {
          message: (error as Error)?.message || '<default>',
          statusCode: 500,
        };
        return Promise.reject(httpError);
      }
>>
    Reading [.statusCode] of a thrown [null] or [undefined] itself throws,
    and that [TypeError] rejects the operation's promise. *)
(** [await p]: a rejection of [p] is thrown. *)
Definition await_ {A} (r : exn A) : M A := ([], r).

(** The [catch] clause itself: it returns a rejected promise, or throws
    when [error] is nullish. *)
Definition catch_clause (dflt : string) (error : jsval) : exn outcome :=
  if is_nullish error then Throw (read_error error "statusCode")
  else if negb (is_undef (get_field error "statusCode")) then Ok (Rejected error)
  else Ok (Rejected (JObj [("message", js_or (get_field error "message") (JStr dflt));
                           ("statusCode", JNum 500)])).

(** An exception escaping an [async] function rejects its promise. *)
Definition settle (r : exn outcome) : outcome :=
  match r with
  | Ok o => o
  | Throw e => Rejected e
  end.

(** The outcome of an operation whose body threw [error]. *)
Definition catch_boundary (dflt : string) (error : jsval) : outcome :=
  settle (catch_clause dflt error).

Definition run_op (dflt : string) (body : M outcome) : list event * outcome :=
  match body with
  | (log, Ok o) => (log, o)
  | (log, Throw e) => (log, catch_boundary dflt e)
  end.

(** A [try { ... } catch (error) { ... }] nested inside an operation's body:
    what its [catch] throws goes on to the enclosing one. *)
Definition try_catch (body : M outcome) (handler : jsval -> exn outcome) : M outcome :=
  match body with
  | (log, Throw e) => (log, handler e)
  | r => r
  end.

(** ** The filter compiler of [getList] *)

Fixpoint foldM {A B} (f : A -> B -> M A) (l : list B) (acc : A) : M A :=
  match l with
  | [] => ret acc
  | x :: rest => bind (f acc x) (fun acc' => foldM f rest acc')
  end.

(** [const { field, operator, value } = filter] *)
Definition destructure (v : jsval) : M (jsval * jsval * jsval) :=
  if is_nullish v then throw (type_error "Cannot destructure filter")
  else ret (get_field v "field", get_field v "operator", get_field v "value").

(** [field.startsWith('data.') ? field.replace('data.', '') : field] *)
Definition adjust_field (field : jsval) : M string :=
  match field with
  | JStr s => ret (if startsWith s "data." then replace_first s "data." else s)
  | _ => throw (type_error "field.startsWith is not a function")
  end.

(** One sub-condition of the [eq]-with-array case. *)
Definition nested_step (nested : list (string * jsval)) (condition : jsval)
  : M (list (string * jsval)) :=
  ' (subField, subOperator, subValue) <- destructure condition ;;
  if truthy subField && truthy subOperator && negb (is_undef subValue) then
    let k := to_str subField in
    let inner := match assoc_get nested k with JObj kvs => kvs | _ => [] end in
    ret (set_prop nested k (JObj (set_prop inner (to_str subOperator) subValue)))
  else ret nested.

(** One sub-condition of the [or] and [and] cases. *)
Definition group_step (conds : list (string * jsval)) (condition : jsval)
  : M (list (string * jsval)) :=
  ' (field, operator, value) <- destructure condition ;;
  if truthy field && truthy operator && negb (is_undef value) then
    adjustedField <- adjust_field field ;;
    ret (set_prop conds adjustedField (JObj [(to_str operator, value)]))
  else ret conds.

(** [field && field.includes('relation.')]: [Some s] enters the relation
    case with the string [s]; an array field has [includes] but no
    [replace], other truthy non-strings have no [includes]. *)
Definition relation_check (field : jsval) : M (option string) :=
  match field with
  | JStr s => ret (if includes s "relation." then Some s else None)
  | JArr l =>
      if existsb (fun x => match x with JStr s => String.eqb s "relation." | _ => false end) l
      then throw (type_error "field.replace is not a function")
      else ret None
  | v => if truthy v then throw (type_error "field.includes is not a function") else ret None
  end.

(** The nested object the relation case builds along [relationPath],
    with the leaf set only when [leaf] is given. *)
Fixpoint build_relation (path : list string) (leaf : option jsval)
  : list (string * jsval) :=
  match path with
  | [] => []
  | [lastPart] => match leaf with Some v => [(lastPart, v)] | None => [] end
  | part :: rest => [(part, JObj (build_relation rest leaf))]
  end.

Definition is_eq (v : jsval) (s : string) : bool :=
  match v with JStr s' => String.eqb s' s | _ => false end.

(** The three cases tried first, on an array [value]: [eq], [or], [and]. *)
Definition composite_case (field operator value : jsval) : M (option jsval) :=
  match value with
  | JArr conds =>
      if is_eq operator "eq" then
        nestedCondition <- foldM nested_step conds [] ;;
        ret (Some (JObj [(to_str field, JObj nestedCondition)]))
      else if is_eq operator "or" then
        orConditions <- foldM group_step conds [] ;;
        ret (Some (JObj [("OR", JObj orConditions)]))
      else if is_eq operator "and" then
        andConditions <- foldM group_step conds [] ;;
        ret (Some (JObj [("AND", JObj andConditions)]))
      else ret None
  | _ => ret None
  end.

(** [operator && value !== undefined] *)
Definition has_condition (operator value : jsval) : bool :=
  truthy operator && negb (is_undef value).

Definition processFilter (filter : jsval) : M jsval :=
  ' (field, operator, value) <- destructure filter ;;
  c <- composite_case field operator value ;;
  match c with
  | Some r => ret r
  | None =>
      if is_eq field "_key" then
        ret (JObj [("_key", JObj [(to_str (js_or operator (JStr "eq")), value)])])
      else
        rc <- relation_check field ;;
        match rc with
        | Some s =>
            let relationPath := split_dot (replace_first s "relation.") in
            let leaf := if has_condition operator value
                        then Some (JObj [(to_str operator, value)]) else None in
            ret (JObj [("relation", JObj (build_relation relationPath leaf))])
        | None =>
            if has_condition operator value then
              adjustedField <- adjust_field field ;;
              ret (JObj [(adjustedField, JObj [(to_str operator, value)])])
            else ret (JObj [])
        end
  end.

(** The three outputs of the filter loop of [getList]: [_key] and
    [relationWhere] start as [null] ([None]), [where] as [{}]. *)
Record Compiled : Type := {
  c_key : option jsval;
  c_relation : option (list (string * jsval));
  c_where : list (string * jsval)
}.

Definition empty_compiled : Compiled :=
  {| c_key := None; c_relation := None; c_where := [] |}.

(** The own properties of an object, as [Object.assign] copies them; the
    processed filters handed to it are always objects. *)
Definition obj_props (v : jsval) : list (string * jsval) :=
  match v with JObj kvs => kvs | _ => [] end.

(** The body of [filters.forEach] after [processFilter]. *)
Definition dispatch (st : Compiled) (processed : jsval) : Compiled :=
  if truthy (get_field processed "_key") then
    {| c_key := Some (get_field processed "_key");
       c_relation := c_relation st; c_where := c_where st |}
  else if truthy (get_field processed "relation") then
    let base := match c_relation st with Some r => r | None => [] end in
    {| c_key := c_key st;
       c_relation := Some (assign base (obj_props (get_field processed "relation")));
       c_where := c_where st |}
  else if truthy (get_field processed "OR") then
    {| c_key := c_key st; c_relation := c_relation st;
       c_where := set_prop (c_where st) "OR" (get_field processed "OR") |}
  else if truthy (get_field processed "AND") then
    {| c_key := c_key st; c_relation := c_relation st;
       c_where := set_prop (c_where st) "AND" (get_field processed "AND") |}
  else
    {| c_key := c_key st; c_relation := c_relation st;
       c_where := assign (c_where st) (obj_props processed) |}.

Definition filter_step (st : Compiled) (filter : jsval) : M Compiled :=
  processed <- processFilter filter ;;
  ret (dispatch st processed).

(** [if (filters && filters.length > 0) filters.forEach(...)] *)
Definition compile_filters (filters : option (list jsval)) : M Compiled :=
  match filters with
  | None => ret empty_compiled
  | Some fs => foldM filter_step fs empty_compiled
  end.

(** ** The sorter reduce of [getList]
<<
      sort: sorters?.reduce((acc, sorter) => {
        const { field, order } = sorter;
        if (field && order) acc[field] = order.toUpperCase();
        return acc;
      }, {}),
>> *)
Definition sort_step (acc : list (string * jsval)) (sorter : jsval)
  : M (list (string * jsval)) :=
  if is_nullish sorter then throw (type_error "Cannot destructure sorter")
  else
    let field := get_field sorter "field" in
    let order := get_field sorter "order" in
    if truthy field && truthy order then
      match order with
      | JStr o => ret (set_prop acc (to_str field) (JStr (toUpperCase o)))
      | _ => throw (type_error "order.toUpperCase is not a function")
      end
    else ret acc.

Definition sort_of (sorters : option (list jsval)) : M jsval :=
  match sorters with
  | None => ret JUndef
  | Some l => acc <- foldM sort_step l [] ;; ret (JObj acc)
  end.

(** ** Documents and responses *)

(** An urql [OperationResult]: [error] is a [CombinedError] or absent,
    [data] is the parsed payload ([undefined] when absent). *)
Record Response : Type := {
  r_error : option CombinedError;
  r_data : jsval
}.

(** [s.charAt(0).toUpperCase() + s.slice(1)] *)
Definition capitalize (s : string) : string :=
  match s with
  | EmptyString => EmptyString
  | String c rest => String (upper_ascii c) rest
  end.

(** [a ?? b] *)
Definition js_coalesce (a b : jsval) : jsval := if is_nullish a then b else a.

Fixpoint filter_some (l : list (option string)) : list string :=
  match l with
  | [] => []
  | Some x :: rest => x :: filter_some rest
  | None :: rest => filter_some rest
  end.

Definition generateConnectionFields (connectionFields aliasFields : jsval) : string :=
  join "
" (map (fun key =>
            let alias := get_field aliasFields key in
            if truthy alias then
              key ++ ": " ++ to_str alias ++ " { " ++ to_str (get_field connectionFields key) ++ " }"
            else key ++ " { " ++ to_str (get_field connectionFields key) ++ " }")
          (obj_keys connectionFields)).

(** [fields.join('\n')]; [meta.fields] is expected to be an array. *)
Definition join_fields (fields : jsval) : M string :=
  match fields with
  | JArr l => ret (join "
" (map join_elem l))
  | _ => throw (type_error "fields.join is not a function")
  end.

(** The variable-declaration list of the synthesised [getList] document,
    before [.filter(Boolean).join('\n')]. *)
Definition queryVariables_list (resource : string) (hasKey hasRelationWhere : bool)
  : list string :=
  let R := toUpperCase resource in
  filter_some
    [ if hasKey then Some ("$_key: " ++ R ++ "LIST_KEY_CONDITION") else None;
      Some ("$connection: " ++ R ++ "_CONNECTION_FILTER_CONDITION");
      Some ("$where: " ++ R ++ "LIST_INPUT_WHERE_PAYLOAD");
      if hasRelationWhere
      then Some ("$relationWhere: " ++ R ++ "_WHERE_RELATION_FILTER_CONDITION") else None;
      if hasKey then Some ("$_keyCount: " ++ R ++ "LIST_COUNT_KEY_CONDITION") else None;
      Some ("$whereCount: " ++ R ++ "LIST_COUNT_INPUT_WHERE_PAYLOAD");
      if hasRelationWhere
      then Some ("$relationWhereCount: " ++ R ++ "_WHERE_RELATION_FILTER_CONDITION") else None;
      Some ("$sort: " ++ R ++ "LIST_INPUT_SORT_PAYLOAD");
      Some "$page: Int";
      Some "$limit: Int";
      Some "$local: LOCAL_TYPE_ENUM" ].

Definition queryArguments_list (hasKey hasRelationWhere : bool) : list string :=
  filter_some
    [ if hasKey then Some "_key: $_key" else None;
      Some "connection: $connection";
      Some "where: $where";
      if hasRelationWhere then Some "relation: $relationWhere" else None;
      Some "sort: $sort"; Some "page: $page"; Some "limit: $limit"; Some "local: $local" ].

Definition countArguments_list (hasKey hasRelationWhere : bool) : list string :=
  filter_some
    [ if hasKey then Some "_key: $_keyCount" else None;
      Some "connection: $connection";
      Some "where: $whereCount";
      if hasRelationWhere then Some "relation: $relationWhereCount" else None;
      Some "page: $page"; Some "limit: $limit" ].

(** The variables object of the synthesised [getList] query; a spread of
    [false] adds no property. *)
Definition getList_variables (c : Compiled) (reverseLookup sort page limit : jsval)
  : list (string * jsval) :=
  let where_ := JObj (c_where c) in
  match c_key c with Some k => [("_key", k)] | None => [] end ++
  [("connection", js_or reverseLookup (JObj [])); ("where", where_)] ++
  match c_relation c with Some r => [("relationWhere", JObj r)] | None => [] end ++
  [("whereCount", where_)] ++
  match c_key c with Some k => [("_keyCount", k)] | None => [] end ++
  match c_relation c with Some r => [("relationWhereCount", JObj r)] | None => [] end ++
  [("sort", sort); ("page", page); ("limit", limit)].

(** [response.data[resource + 'ListCount']]: its [total] when the object
    has that key, else [0]; the [in] operator throws on a primitive. *)
Definition list_total (resource : string) (data : jsval) : M jsval :=
  match js_or (get_field data (resource ++ "ListCount")) (JObj []) with
  | JObj kvs =>
      ret (if existsb (fun kv => String.eqb (fst kv) "total") kvs
           then assoc_get kvs "total" else JNum 0)
  | JArr _ => ret (JNum 0)
  | v => throw (type_error ("Cannot use 'in' operator to search for 'total' in " ++ to_str v))
  end.

(** The backend's own error array in [response.data.errors], checked by
    [deleteOne] and [custom] after the transport reported no error. *)
Fixpoint error_messages (errs : list jsval) : M (list jsval) :=
  match errs with
  | [] => ret []
  | e :: rest =>
      if is_nullish e then throw (read_error e "message")
      else ms <- error_messages rest ;; ret (get_field e "message" :: ms)
  end.

Definition data_errors_check (data : jsval) : M (option outcome) :=
  match get_field data "errors" with
  | JArr errs =>
      ms <- error_messages errs ;;
      ret (Some (Rejected (JObj [("message", JStr (join ", " (map join_elem ms)));
                                 ("statusCode", JNum 400)])))
  | _ => ret None
  end.

(** ** The provider returned by [apitoDataProvider(apiUrl, token, onTokenExpired)] *)

Section Provider.

(** [pluralize.plural] and [pluralize.singular] *)
Variable plural : string -> string.
Variable singular : string -> string.
(** [client.query(document, variables).toPromise()] and
    [client.mutation(document, variables).toPromise()]: the response, or
    the value the awaited promise rejects with. *)
Variable client_query : jsval -> jsval -> exn Response.
Variable client_mutation : jsval -> jsval -> exn Response.
(** Whether [onTokenExpired] was supplied. *)
Variable onTokenExpired : bool.

(** The document and variables [getList] synthesises when no [meta.gqlQuery]
    is given (indentation of the template is not modelled). *)
Definition getList_request (resource : string) (filters : option (list jsval))
  (sorters : option (list jsval)) (pagination meta : jsval) : M (string * jsval) :=
  let connectionFields := js_or (get_field meta "connectionFields") (JObj []) in
  let aliasFields := js_or (get_field meta "aliasFields") (JObj []) in
  let reverseLookup := js_or (get_field meta "reverseLookup") (JObj []) in
  let fields := js_or (get_field meta "fields") (JArr [JStr "id"]) in
  let pluralResource := capitalize (plural resource) in
  c <- compile_filters filters ;;
  let hasKey := match c_key c with Some _ => true | None => false end in
  let hasRelationWhere := match c_relation c with Some _ => true | None => false end in
  let queryVariables := join "
" (queryVariables_list resource hasKey hasRelationWhere) in
  let queryArguments := join ", " (queryArguments_list hasKey hasRelationWhere) in
  let countArguments := join ", " (countArguments_list hasKey hasRelationWhere) in
  fieldsText <- join_fields fields ;;
  let query :=
    "query Get" ++ pluralResource ++ "(
" ++ queryVariables ++ "
) {
" ++ resource ++ "List(" ++ queryArguments ++ ") {
id
data {
" ++ fieldsText ++ "
}
" ++ generateConnectionFields connectionFields aliasFields ++ "
meta {
created_at
status
updated_at
}
}
" ++ resource ++ "ListCount(" ++ countArguments ++ ") {
total
}
}" in
  sort <- sort_of sorters ;;
  let page := js_or (js_or (get_field pagination "current") (get_field pagination "page")) (JNum 1) in
  let limit := js_or (js_or (get_field pagination "pageSize") (get_field pagination "size")) (JNum 10) in
  ret (query, JObj (getList_variables c reverseLookup sort page limit)).

Definition getList_body (resource : string) (filters : option (list jsval))
  (sorters : option (list jsval)) (pagination meta : jsval) : M outcome :=
  if truthy (get_field meta "gqlQuery") then
    let query := get_field meta "gqlQuery" in
    let variables := get_field meta "variables" in
    let queryKey := js_or (get_field meta "queryKey") (JStr resource) in
    response <- await_ (client_query query variables) ;;
    match r_error response with
    | Some e => reject_classified e onTokenExpired
    | None =>
        let responseData :=
          match get_field (r_data response) (to_str queryKey) with
          | JArr l => l | _ => [] end in
        ret (Resolved (JObj [("data", JArr responseData);
                             ("total", JNum (Z.of_nat (length responseData)))]))
    end
  else
    ' (query, variables) <- getList_request resource filters sorters pagination meta ;;
    response <- await_ (client_query (JStr query) variables) ;;
    match r_error response with
    | Some e => reject_classified e onTokenExpired
    | None =>
        let data := js_coalesce (get_field (r_data response) (resource ++ "List")) (JArr []) in
        total <- list_total resource (r_data response) ;;
        ret (Resolved (JObj [("data", data); ("total", total)]))
    end.

Definition getList (resource : string) (filters : option (list jsval))
  (sorters : option (list jsval)) (pagination meta : jsval) : list event * outcome :=
  run_op "Failed to fetch list data" (getList_body resource filters sorters pagination meta).

Definition deleteOne_document (resource : string) : string :=
  let name := capitalize (singular resource) in
  "mutation Delete" ++ name ++ "($ids: [String]!) {
delete" ++ name ++ "(_ids: $ids) {
response
}
}".

Definition deleteOne_body (resource : string) (id : jsval) : M outcome :=
  let query := deleteOne_document resource in
  response <- await_ (client_mutation (JStr query) (JObj [("ids", JArr [id])])) ;;
  match r_error response with
  | Some e => reject_classified e onTokenExpired
  | None =>
      chk <- data_errors_check (r_data response) ;;
      match chk with
      | Some o => ret o
      | None =>
          ret (Resolved (JObj [("data",
                 js_coalesce (get_field (get_field (r_data response)
                                ("delete" ++ capitalize resource)) "data") (JObj []))]))
      end
  end.

Definition deleteOne (resource : string) (id : jsval) : list event * outcome :=
  run_op ("Failed to delete " ++ resource ++ " with id " ++ to_str id)
    (deleteOne_body resource id).

(** The branch of [create] and [update] that runs a caller-supplied
    [meta.gqlMutation]: its failure is classified as
    [handleGraphQLError(response.error)], without [onTokenExpired]. *)
Definition raw_mutation (opname resource : string) (variables meta : jsval) : M outcome :=
  let query := get_field meta "gqlMutation" in
  let _variables := if truthy variables then variables else get_field meta "variables" in
  response <- await_ (client_mutation query _variables) ;;
  match r_error response with
  | Some e => reject_classified e false
  | None =>
      ret (Resolved (JObj [("data",
             js_coalesce (get_field (get_field (r_data response)
                            (opname ++ capitalize resource)) "data") (JObj []))]))
  end.

(** The inner [try] block of [create]'s synthesising branch. *)
Definition create_synth (resource : string) (variables meta : jsval) : M outcome :=
    let singularResource := singular resource in
    let fields := js_or (get_field meta "fields") (JArr [JStr "id"]) in
    let name := capitalize singularResource in
    fieldsText <- join_fields fields ;;
    let query := "mutation Create" ++ name ++ "($payload: " ++ name ++
      "_Create_Payload!, $connect: " ++ name ++ "_Relation_Connect_Payload) {
create" ++ name ++ "(payload: $payload, connect: $connect, status: published) {
id
data {
" ++ fieldsText ++ "
}
meta {
created_at
status
updated_at
}
}
}" in
    if is_nullish variables then throw (read_error variables "data")
    else
      response <- await_ (client_mutation (JStr query)
        (JObj [("payload", get_field variables "data"); ("connect", get_field variables "connect")])) ;;
      match r_error response with
      | Some e => reject_classified e onTokenExpired
      | None =>
          ret (Resolved (JObj [("data",
                 js_coalesce (get_field (r_data response) ("create" ++ name)) (JObj []))]))
      end.

(** The synthesising branch runs in a [try] nested in the operation's own,
    with a [catch] of the same text. *)
Definition create_body (resource : string) (variables meta : jsval) : M outcome :=
  if truthy (get_field meta "gqlMutation") then raw_mutation "create" resource variables meta
  else try_catch (create_synth resource variables meta)
         (catch_clause ("Failed to create " ++ resource)).

Definition create (resource : string) (variables meta : jsval) : list event * outcome :=
  run_op ("Failed to create " ++ resource) (create_body resource variables meta).

Definition update_body (resource : string) (id variables meta : jsval) : M outcome :=
  if truthy (get_field meta "gqlMutation") then raw_mutation "update" resource variables meta
  else
    let fields := js_or (get_field meta "fields") (JArr [JStr "id"]) in
    let deltaUpdate := js_or (get_field meta "deltaUpdate") (JBool false) in
    let name := capitalize (singular resource) in
    fieldsText <- join_fields fields ;;
    let query := "mutation Update" ++ name ++ "(
$id: String!,
$deltaUpdate: Boolean,
$payload: " ++ name ++ "_Update_Payload!,
$connect: " ++ name ++ "_Relation_Connect_Payload,
$disconnect: " ++ name ++ "_Relation_Disconnect_Payload
) {
update" ++ name ++ "(_id: $id, deltaUpdate: $deltaUpdate, payload: $payload, connect: $connect, disconnect: $disconnect, status: published) {
id
data {
" ++ fieldsText ++ "
}
meta {
created_at
status
updated_at
}
}
}" in
    if is_nullish variables then throw (read_error variables "data")
    else
      let _variables := JObj [("id", id); ("deltaUpdate", deltaUpdate);
                              ("payload", get_field variables "data");
                              ("connect", get_field variables "connect");
                              ("disconnect", get_field variables "disconnect")] in
      response <- await_ (client_mutation (JStr query) _variables) ;;
      match r_error response with
      | Some e => reject_classified e onTokenExpired
      | None =>
          ret (Resolved (JObj [("data",
                 js_coalesce (get_field (get_field (r_data response)
                                ("update" ++ capitalize resource)) "data") (JObj []))]))
      end.

Definition update (resource : string) (id variables meta : jsval) : list event * outcome :=
  run_op ("Failed to update " ++ resource ++ " with id " ++ to_str id)
    (update_body resource id variables meta).

(** The [where] reduce of [custom]. *)
Definition custom_where_step (acc : list (string * jsval)) (filter : jsval)
  : M (list (string * jsval)) :=
  ' (field, operator, value) <- destructure filter ;;
  if has_condition operator value then
    adjustedField <- adjust_field field ;;
    ret (set_prop acc adjustedField (JObj [(to_str (js_or operator (JStr "eq")), value)]))
  else ret acc.

(** The own enumerable properties a spread [{...v}] copies. *)
Definition spread_props (v : jsval) : list (string * jsval) :=
  match v with
  | JObj kvs => kvs
  | JArr l => combine (indices l 0) l
  | JStr s => combine (indices (string_chars s) 0) (map JStr (string_chars s))
  | _ => []
  end.

(** The variables [custom] sends: [meta.gqlVariables] with the [where]
    computed from [filters], and a keyed [payloads] object made an array. *)
Definition custom_variables (filters : option (list jsval)) (meta : jsval) : M jsval :=
  let variables := get_field meta "gqlVariables" in
  variables <- match filters with
               | None => ret variables
               | Some fs =>
                   w <- foldM custom_where_step fs [] ;;
                   ret (JObj (set_prop (spread_props variables) "where" (JObj w)))
               end ;;
  ret match get_field variables "payloads" with
      | JObj kvs => JObj (set_prop (spread_props variables) "payloads" (JArr (map snd kvs)))
      | _ => variables
      end.

Definition custom_body (filters : option (list jsval)) (meta : jsval) : M outcome :=
  let query := get_field meta "gqlQuery" in
  let mutation := get_field meta "gqlMutation" in
  if truthy query && truthy mutation then
    ret (Rejected (JObj [("message", JStr "Query and mutation cannot both be provided for custom operation");
                         ("statusCode", JNum 400)]))
  else if negb (truthy query) && negb (truthy mutation) then
    ret (Rejected (JObj [("message", JStr "Query or mutation is required for custom operation");
                         ("statusCode", JNum 400)]))
  else
    variables <- custom_variables filters meta ;;
    response <- await_ (if truthy query then client_query query variables
                    else client_mutation mutation variables) ;;
    match r_error response with
    | Some e => reject_classified e onTokenExpired
    | None =>
        chk <- data_errors_check (r_data response) ;;
        match chk with
        | Some o => ret o
        | None => ret (Resolved (JObj [("data", r_data response)]))
        end
    end.

Definition custom (filters : option (list jsval)) (meta : jsval) : list event * outcome :=
  run_op "Failed to execute custom operation" (custom_body filters meta).

Definition getOne_body (resource : string) (id meta : jsval) : M outcome :=
  let fields := js_or (get_field meta "fields") (JArr [JStr "id"]) in
  let connectionFields := js_or (get_field meta "connectionFields") (JObj []) in
  let aliasFields := js_or (get_field meta "aliasFields") (JObj []) in
  let singularResource := singular resource in
  fieldsText <- join_fields fields ;;
  let query := "query Get" ++ capitalize singularResource ++ "($id: String!) {
" ++ singularResource ++ "(_id: $id) {
id
data {
" ++ fieldsText ++ "
}
" ++ generateConnectionFields connectionFields aliasFields ++ "
meta {
created_at
status
updated_at
}
}
}" in
  response <- await_ (client_query (JStr query) (JObj [("id", id)])) ;;
  match r_error response with
  | Some e => reject_classified e onTokenExpired
  | None =>
      ret (Resolved (JObj [("data",
             js_coalesce (get_field (r_data response) singularResource) (JObj []))]))
  end.

Definition getOne (resource : string) (id meta : jsval) : list event * outcome :=
  run_op ("Failed to fetch " ++ resource ++ " with id " ++ to_str id)
    (getOne_body resource id meta).

(** The predicate of the payload clean-up in [createMany]:
    [item !== null && item !== undefined &&
     (typeof item !== 'object' || Object.keys(item).length > 0)]. *)
Definition keep_payload (item : jsval) : bool :=
  match item with
  | JUndef | JNull => false
  | JObj kvs => negb (Nat.eqb (length kvs) 0)
  | JArr l => negb (Nat.eqb (length l) 0)
  | _ => true
  end.

(** [Array.isArray(variables) ? variables.filter(...) : variables] *)
Definition clean_payloads (variables : jsval) : jsval :=
  match variables with
  | JArr l => JArr (filter keep_payload l)
  | v => v
  end.

Definition createMany_body (resource : string) (variables meta : jsval) : M outcome :=
  let singularResource := singular resource in
  let fields := js_or (get_field meta "fields") (JArr [JStr "id"]) in
  let name := capitalize singularResource in
  fieldsText <- join_fields fields ;;
  let mutation := "mutation Upsert" ++ name ++ "List($payloads: [" ++ name ++
    "List_Upsert_Payload!]!, $connect: " ++ name ++ "_Relation_Connect_Payload) {
upsert" ++ name ++ "List(payloads: $payloads, connect: $connect, status: published) {
id
data {
" ++ fieldsText ++ "
}
meta {
created_at
status
updated_at
}
}
}" in
  let variableData := clean_payloads variables in
  response <- await_ (client_mutation (JStr mutation) (JObj [("payloads", variableData)])) ;;
  match r_error response with
  | Some e => reject_classified e onTokenExpired
  | None =>
      ret (Resolved (JObj [("data",
             js_coalesce (get_field (r_data response) ("upsert" ++ name ++ "List")) (JArr []))]))
  end.

Definition createMany (resource : string) (variables meta : jsval) : list event * outcome :=
  run_op ("Failed to create multiple " ++ resource ++ " records")
    (createMany_body resource variables meta).

End Provider.


(** * Properties *)

(** ** The error classifier *)

(** C1: [handleGraphQLError] follows its decision order on every input.
    No error object gives [{Unknown error occurred, 500}].  A network error
    whose embedded status ([statusCode || status]) is 401 or 403 invokes the
    supplied callback once and gives [{Token expired..., 403}], whatever
    GraphQL errors come with it; any other network error gives
    [{Network error: <message>, <embedded status> || 503}].  Without a
    network error, a non-empty list of GraphQL errors one of whose messages
    contains an authentication keyword (ignoring case) invokes the callback
    once and gives [{Authentication failed..., 403}]; otherwise the messages
    joined by ", " with status 400.  The callback is invoked in no other
    case. *)
Theorem handleGraphQLError_decision_order (cb : bool) :
  handleGraphQLError None cb =
    ([], {| he_message := "Unknown error occurred"; he_statusCode := JNum 500 |}) /\
  (forall err ne, ce_networkError err = Some ne ->
     is_auth_status (embedded_status ne) = true ->
     handleGraphQLError (Some err) cb =
       (call_opt cb, {| he_message := "Token expired. Please login again.";
                        he_statusCode := JNum 403 |})) /\
  (forall err ne, ce_networkError err = Some ne ->
     is_auth_status (embedded_status ne) = false ->
     handleGraphQLError (Some err) cb =
       ([], {| he_message := "Network error: " ++ ne_message ne;
               he_statusCode := js_or (embedded_status ne) (JNum 503) |})) /\
  (forall err, ce_networkError err = None -> ce_graphQLErrors err <> [] ->
     existsb has_auth_keyword (ce_graphQLErrors err) = true ->
     handleGraphQLError (Some err) cb =
       (call_opt cb, {| he_message := "Authentication failed. Please login again.";
                        he_statusCode := JNum 403 |})) /\
  (forall err, ce_networkError err = None -> ce_graphQLErrors err <> [] ->
     existsb has_auth_keyword (ce_graphQLErrors err) = false ->
     handleGraphQLError (Some err) cb =
       ([], {| he_message := join ", " (ce_graphQLErrors err);
               he_statusCode := JNum 400 |})) /\
  call_opt cb = (if cb then [SessionExpired] else []).
Proof.
  repeat split; intros *.
  - intros Hne Hst. simpl. rewrite Hne. cbv zeta. rewrite Hst. reflexivity.
  - intros Hne Hst. simpl. rewrite Hne. cbv zeta. rewrite Hst. reflexivity.
  - intros Hne Hnil Hkw. simpl. rewrite Hne.
    destruct (ce_graphQLErrors err) eqn:E; [congruence|]. rewrite Hkw. reflexivity.
  - intros Hne Hnil Hkw. simpl. rewrite Hne.
    destruct (ce_graphQLErrors err) eqn:E; [congruence|]. rewrite Hkw. reflexivity.
Qed.

(** ** The operation boundary *)

(** A transport failure carrying a non-numeric [statusCode], as a Node
    socket error does. *)
Definition socket_error : jsval :=
  JObj [("name", JStr "FetchError"); ("message", JStr "socket hang up");
        ("statusCode", JStr "ECONNRESET")].

(** C2 (counterexample): [getList] does not convert every exception whose
    [statusCode] is not numeric: an awaited step that rejects with
    [socket_error] makes [getList] reject with that very object, whose
    [statusCode] is the string "ECONNRESET", not 500. *)
Lemma getList_rethrows_nonnumeric_statusCode :
  getList (fun s => s ++ "s") (fun _ _ => Throw socket_error) true
    "product" None None JUndef JUndef = ([], Rejected socket_error) /\
  get_field socket_error "statusCode" = JStr "ECONNRESET".
Proof. split; vm_compute; reflexivity. Qed.

(** ** The total of [getList] *)

Lemma catch_clause_type_error dflt msg :
  msg <> "" ->
  catch_clause dflt (type_error msg) =
    Ok (Rejected (JObj [("message", JStr msg); ("statusCode", JNum 500)])).
Proof.
  intro H. unfold catch_clause, type_error. cbn.
  unfold js_or. cbn [truthy]. apply String.eqb_neq in H. rewrite H. reflexivity.
Qed.

Lemma boundary_type_error dflt msg :
  msg <> "" ->
  catch_boundary dflt (type_error msg) =
    Rejected (JObj [("message", JStr msg); ("statusCode", JNum 500)]).
Proof.
  intro H. unfold catch_boundary, type_error. cbn.
  unfold js_or. cbn [truthy]. apply String.eqb_neq in H. rewrite H. reflexivity.
Qed.

Lemma catch_boundary_rejects dflt e : exists v, catch_boundary dflt e = Rejected v.
Proof.
  unfold catch_boundary, catch_clause.
  destruct (is_nullish e); [simpl; eauto|].
  destruct (negb (is_undef (get_field e "statusCode"))); simpl; eauto.
Qed.

Lemma reject_classified_rejects e cb : exists log v, reject_classified e cb = (log, Ok (Rejected v)).
Proof.
  unfold reject_classified. destruct (handleGraphQLError (Some e) cb). eauto.
Qed.

(** A raw query naming both the list and its count. *)
Definition product_raw_query : jsval :=
  JStr "query { product { id } productListCount { total } }".

Definition product_response : Response :=
  {| r_error := None;
     r_data := JObj [("product", JArr [JObj [("id", JStr "1")]]);
                     ("productList", JArr [JObj [("id", JStr "1")]]);
                     ("productListCount", JObj [("total", JNum 57)])] |}.

(** C3 (counterexample): with a caller-supplied [meta.gqlQuery] the total
    is the length of the returned array: the backend reports 57 in
    [productListCount.total], [getList] returns total 1. *)
Lemma getList_raw_query_total_is_length :
  getList (fun s => s ++ "s") (fun _ _ => Ok product_response) true "product" None None
    JUndef (JObj [("gqlQuery", product_raw_query)]) =
  ([], Resolved (JObj [("data", JArr [JObj [("id", JStr "1")]]); ("total", JNum 1)])).
Proof. vm_compute. reflexivity. Qed.

Ltac split_bind H :=
  match goal with
  | |- context [bind ?m _] =>
      let lg := fresh "lg" in let a := fresh "a" in let e := fresh "e" in
      destruct m as [lg [a|e]] eqn:H; simpl
  end.

Ltac no_resolve :=
  cbn -[catch_boundary] in *;
  match goal with
  | H : (_, catch_boundary ?d ?e) = (_, Resolved _) |- _ =>
      let Hb := fresh "Hb" in
      destruct (catch_boundary_rejects d e) as [? Hb]; rewrite Hb in H; discriminate
  end.

(** C3 (amended): when [getList] resolves without [meta.gqlQuery], its
    total is what [list_total] reads from the response of the synthesised
    query: the [total] of [data[resource + 'ListCount']], or 0 when that
    object has no [total]; the list under [data[resource + 'List']] plays no
    part.  With [meta.gqlQuery] the total is the length of the array under
    [data[meta.queryKey || resource]] (0 entries when it is no array). *)
Theorem getList_total plural cq cb resource filters sorters pagination meta log v :
  getList plural cq cb resource filters sorters pagination meta = (log, Resolved v) ->
  if truthy (get_field meta "gqlQuery") then
    exists resp,
      cq (get_field meta "gqlQuery") (get_field meta "variables") = Ok resp /\
      r_error resp = None /\
      get_field v "total" =
        JNum (Z.of_nat (length
          (match get_field (r_data resp)
                   (to_str (js_or (get_field meta "queryKey") (JStr resource))) with
           | JArr l => l | _ => [] end)))
  else
    exists q vars resp,
      snd (getList_request plural resource filters sorters pagination meta) = Ok (q, vars) /\
      cq (JStr q) vars = Ok resp /\
      r_error resp = None /\
      snd (list_total resource (r_data resp)) = Ok (get_field v "total").
Proof.
  unfold getList, run_op, getList_body.
  destruct (truthy (get_field meta "gqlQuery")) eqn:Hq.
  - unfold await_, bind.
    destruct (cq (get_field meta "gqlQuery") (get_field meta "variables")) as [resp|e] eqn:Hc.
    + destruct (r_error resp) as [e|] eqn:He.
      * destruct (reject_classified_rejects e cb) as [lg [w Hw]]. rewrite Hw.
        intro H; inversion H.
      * intro H. inversion H; subst. exists resp. repeat split; auto.
    + intro H. no_resolve.
  - unfold bind at 1.
    destruct (getList_request plural resource filters sorters pagination meta)
      as [lg [[q vars]|e]] eqn:Hr.
    + unfold await_, bind.
      destruct (cq (JStr q) vars) as [resp|e] eqn:Hc.
      * destruct (r_error resp) as [e|] eqn:He.
        -- destruct (reject_classified_rejects e cb) as [lg' [w Hw]]. rewrite Hw.
           intro H; inversion H.
        -- destruct (list_total resource (r_data resp)) as [lg' [t|e]] eqn:Ht.
           ++ intro H. inversion H; subst. exists q, vars, resp.
              repeat split; auto. rewrite Ht. reflexivity.
           ++ intro H. no_resolve.
      * intro H. no_resolve.
    + intro H. no_resolve.
Qed.

(** C3: the witness, on the backend answer with one listed product and a
    count of 57: [getList] resolves with total 57. *)
Lemma getList_total_witness :
  getList (fun s => s ++ "s") (fun _ _ => Ok product_response) true "product" None None
    JUndef JUndef =
  ([], Resolved (JObj [("data", JArr [JObj [("id", JStr "1")]]); ("total", JNum 57)])) /\
  exists q vars resp,
    snd (getList_request (fun s => s ++ "s") "product" None None JUndef JUndef) = Ok (q, vars) /\
    (fun _ _ => Ok product_response) (JStr q) vars = Ok resp /\
    r_error resp = None /\
    snd (list_total "product" (r_data resp)) = Ok (JNum 57).
Proof.
  assert (H : getList (fun s => s ++ "s") (fun _ _ => Ok product_response) true "product"
                None None JUndef JUndef =
              ([], Resolved (JObj [("data", JArr [JObj [("id", JStr "1")]]); ("total", JNum 57)])))
    by (vm_compute; reflexivity).
  split; [exact H|].
  exact (getList_total (fun s => s ++ "s") (fun _ _ => Ok product_response) true "product"
           None None JUndef JUndef [] _ H).
Defined.

(** ** The filter compiler *)

Definition mk_filter (field operator value : jsval) : jsval :=
  JObj [("field", field); ("operator", operator); ("value", value)].

Lemma bind_ret {A B} (a : A) (k : A -> M B) : bind ([], Ok a) k = k a.
Proof. unfold bind. simpl. destruct (k a). reflexivity. Qed.

Lemma bind_throw {A B} log e (k : A -> M B) : bind (log, Throw e) k = (log, Throw e).
Proof. reflexivity. Qed.

Lemma is_eq_spec v s : is_eq v s = true -> v = JStr s.
Proof.
  destruct v; simpl; try discriminate.
  intro H. apply String.eqb_eq in H. subst. reflexivity.
Qed.

Lemma assign_nil w : assign w [] = w.
Proof. reflexivity. Qed.

(** Two runs of the filter loop agree on the log, on what they throw, and
    on the [where] object and relation condition they produce. *)
Definition same_where_relation (r1 r2 : M Compiled) : Prop :=
  match r1, r2 with
  | (l1, Ok c1), (l2, Ok c2) =>
      l1 = l2 /\ c_where c1 = c_where c2 /\ c_relation c1 = c_relation c2
  | (l1, Throw e1), (l2, Throw e2) => l1 = l2 /\ e1 = e2
  | _, _ => False
  end.

Lemma same_where_relation_app l r1 r2 :
  same_where_relation r1 r2 ->
  same_where_relation (let (l', r) := r1 in (app l l', r)) (let (l', r) := r2 in (app l l', r)).
Proof.
  destruct r1 as [l1 [c1|e1]], r2 as [l2 [c2|e2]]; simpl; intuition congruence.
Qed.

Lemma filter_step_where_relation st1 st2 flt :
  c_where st1 = c_where st2 -> c_relation st1 = c_relation st2 ->
  same_where_relation (filter_step st1 flt) (filter_step st2 flt).
Proof.
  intros Hw Hr. unfold filter_step, bind.
  destruct (processFilter flt) as [l [p|e]]; simpl; [|auto].
  unfold dispatch.
  destruct (truthy (get_field p "_key")); simpl; [rewrite ?app_nil_r; auto|].
  destruct (truthy (get_field p "relation")); simpl; [rewrite ?app_nil_r, Hr; auto|].
  destruct (truthy (get_field p "OR")); simpl; [rewrite ?app_nil_r, Hw; auto|].
  destruct (truthy (get_field p "AND")); simpl; rewrite ?app_nil_r, Hw; auto.
Qed.

(** A filter the reserved-key case takes: field ["_key"], and not one of the
    composite cases ([eq], [or], [and] with an array value) tried before. *)
Definition routes_to_key (flt : jsval) : bool :=
  negb (is_nullish flt) && is_eq (get_field flt "field") "_key" &&
  match get_field flt "value" with
  | JArr _ =>
      negb (is_eq (get_field flt "operator") "eq" || is_eq (get_field flt "operator") "or" ||
            is_eq (get_field flt "operator") "and")
  | _ => true
  end.

Lemma key_filter_step st flt :
  routes_to_key flt = true ->
  filter_step st flt =
    ([], Ok {| c_key := Some (JObj [(to_str (js_or (get_field flt "operator") (JStr "eq")),
                                     get_field flt "value")]);
               c_relation := c_relation st; c_where := c_where st |}).
Proof.
  unfold routes_to_key. intro H.
  destruct (is_nullish flt) eqn:Hn; [discriminate|].
  unfold filter_step, processFilter, destructure. rewrite Hn.
  set (fld := get_field flt "field") in *. set (op := get_field flt "operator") in *.
  set (val := get_field flt "value") in *. clearbody fld op val.
  destruct (is_eq fld "_key") eqn:Hk; [|discriminate].
  simpl in H. unfold composite_case, bind, ret.
  destruct val; cbn -[to_str js_or is_eq]; rewrite ?Hk; try reflexivity.
  apply negb_true_iff, orb_false_iff in H as [H Hand].
  apply orb_false_iff in H as [Heq Hor].
  rewrite Heq, Hor, Hand. cbn -[to_str js_or is_eq]. reflexivity.
Qed.

Lemma foldM_drop_key_filters fs st1 st2 :
  c_where st1 = c_where st2 -> c_relation st1 = c_relation st2 ->
  same_where_relation (foldM filter_step fs st1)
    (foldM filter_step (filter (fun f => negb (routes_to_key f)) fs) st2).
Proof.
  revert st1 st2. induction fs as [|flt rest IH]; intros st1 st2 Hw Hr.
  - simpl. auto.
  - simpl. destruct (routes_to_key flt) eqn:Hk; simpl.
    + rewrite (key_filter_step st1 flt Hk), bind_ret. apply IH; auto.
    + pose proof (filter_step_where_relation st1 st2 flt Hw Hr) as Hs.
      unfold bind.
      destruct (filter_step st1 flt) as [l1 [c1|e1]], (filter_step st2 flt) as [l2 [c2|e2]];
        simpl in Hs; try contradiction.
      * destruct Hs as [-> [Hw' Hr']].
        apply same_where_relation_app. apply IH; auto.
      * destruct Hs as [-> ->]. simpl. auto.
Qed.

Lemma key_group_filter_step st op conds w :
  foldM group_step conds [] = ([], Ok w) ->
  (op = "or" \/ op = "and") ->
  filter_step st (mk_filter (JStr "_key") (JStr op) (JArr conds)) =
    ([], Ok {| c_key := c_key st; c_relation := c_relation st;
               c_where := set_prop (c_where st) (if String.eqb op "or" then "OR" else "AND")
                            (JObj w) |}).
Proof.
  intros Hw Hop.
  unfold filter_step, processFilter, destructure, mk_filter.
  cbn [is_nullish get_field assoc_get fst snd String.eqb].
  unfold ret at 1. rewrite bind_ret. cbv beta iota.
  unfold composite_case.
  destruct Hop as [-> | ->]; cbn [is_eq String.eqb Ascii.eqb Bool.eqb andb];
    rewrite Hw, bind_ret; unfold ret at 1; rewrite bind_ret; cbv beta iota;
    unfold ret at 1; rewrite bind_ret; reflexivity.
Qed.

(** C4 (counterexample): a condition on ["_key"] with operator ["or"] and
    an array value is compiled as an [OR] group into [where]; the key
    condition stays [null]. *)
Lemma key_filter_with_or_goes_to_where :
  compile_filters (Some [mk_filter (JStr "_key") (JStr "or")
                           (JArr [mk_filter (JStr "a") (JStr "eq") (JNum 1)])]) =
  ([], Ok {| c_key := None; c_relation := None;
             c_where := [("OR", JObj [("a", JObj [("eq", JNum 1)])])] |}).
Proof. vm_compute. reflexivity. Qed.

(** C4 (amended): a condition on ["_key"] that none of the composite cases
    takes ([routes_to_key]) sets the key condition to
    [{(operator || 'eq'): value}] and leaves [where] and the relation
    condition as they were; so for every filter list, dropping all such
    conditions changes neither the compiled [where] nor the relation
    condition (nor the log or a raised error).  The filter
    [{field: "_key", operator: "eq", value: "abc"}] is such a condition.
    A condition on ["_key"] with operator ["or"] or ["and"] and an array
    value whose conditions compile to [w] sets [where.OR] or [where.AND] to
    [w] and leaves the key condition as it was. *)
Theorem key_condition_routing :
  (forall st flt, routes_to_key flt = true ->
     filter_step st flt =
       ([], Ok {| c_key := Some (JObj [(to_str (js_or (get_field flt "operator") (JStr "eq")),
                                        get_field flt "value")]);
                  c_relation := c_relation st; c_where := c_where st |})) /\
  (forall fs, same_where_relation (compile_filters (Some fs))
                (compile_filters (Some (filter (fun f => negb (routes_to_key f)) fs)))) /\
  routes_to_key (mk_filter (JStr "_key") (JStr "eq") (JStr "abc")) = true /\
  (forall st conds w, foldM group_step conds [] = ([], Ok w) ->
     filter_step st (mk_filter (JStr "_key") (JStr "or") (JArr conds)) =
       ([], Ok {| c_key := c_key st; c_relation := c_relation st;
                  c_where := set_prop (c_where st) "OR" (JObj w) |}) /\
     filter_step st (mk_filter (JStr "_key") (JStr "and") (JArr conds)) =
       ([], Ok {| c_key := c_key st; c_relation := c_relation st;
                  c_where := set_prop (c_where st) "AND" (JObj w) |})).
Proof.
  split; [exact key_filter_step|]. split; [|split; [reflexivity|]].
  - intro fs. apply foldM_drop_key_filters; reflexivity.
  - intros st conds w Hw. split; apply key_group_filter_step; auto.
Qed.

(** A condition with no operator or an [undefined] value, on a field that
    is absent or falsy, or a string that is not ["_key"] and has no
    ["relation."] in it. *)
Definition skippable_field (field : jsval) : bool :=
  match field with
  | JStr s => negb (String.eqb s "_key") && negb (includes s "relation.")
  | v => negb (truthy v)
  end.

Definition skipped_condition (flt : jsval) : bool :=
  negb (is_nullish flt) &&
  negb (has_condition (get_field flt "operator") (get_field flt "value")) &&
  skippable_field (get_field flt "field").

Lemma no_condition_not_composite fld op val :
  has_condition op val = false -> composite_case fld op val = ret None.
Proof.
  unfold composite_case, has_condition. destruct val; try reflexivity.
  simpl. rewrite andb_true_r. intro Hop.
  destruct (is_eq op "eq") eqn:E1; [apply is_eq_spec in E1; subst; discriminate|].
  destruct (is_eq op "or") eqn:E2; [apply is_eq_spec in E2; subst; discriminate|].
  destruct (is_eq op "and") eqn:E3; [apply is_eq_spec in E3; subst; discriminate|].
  reflexivity.
Qed.

Lemma skipped_field fld :
  skippable_field fld = true ->
  is_eq fld "_key" = false /\ relation_check fld = ret None.
Proof.
  unfold skippable_field.
  destruct fld as [| |b|z|s|l|kvs]; simpl; intro H; try discriminate.
  - split; reflexivity.
  - split; reflexivity.
  - destruct b; [discriminate|]. split; reflexivity.
  - apply negb_true_iff in H. split; [reflexivity|]. unfold relation_check. simpl.
    rewrite H. reflexivity.
  - apply andb_true_iff in H as [H1 H2].
    apply negb_true_iff in H1, H2. rewrite H1, H2. split; reflexivity.
Qed.

Lemma dispatch_empty st : dispatch st (JObj []) = st.
Proof. destruct st. reflexivity. Qed.

Lemma skipped_filter_step st flt :
  skipped_condition flt = true -> filter_step st flt = ([], Ok st).
Proof.
  unfold skipped_condition. intro H.
  apply andb_true_iff in H as [H Hf]. apply andb_true_iff in H as [Hn Hc].
  apply negb_true_iff in Hn, Hc.
  unfold filter_step, processFilter, destructure. rewrite Hn.
  set (fld := get_field flt "field") in *. set (op := get_field flt "operator") in *.
  set (val := get_field flt "value") in *. clearbody fld op val.
  destruct (skipped_field fld Hf) as [Hk Hr].
  unfold ret at 1. cbv beta iota. rewrite bind_ret. cbv beta iota.
  rewrite (no_condition_not_composite fld op val Hc). unfold ret at 1.
  rewrite bind_ret. cbv beta iota. rewrite Hk, Hr. unfold ret at 1.
  rewrite bind_ret, Hc. unfold ret. rewrite bind_ret.
  rewrite dispatch_empty. reflexivity.
Qed.

Lemma foldM_skipped fs st :
  forallb skipped_condition fs = true -> foldM filter_step fs st = ret st.
Proof.
  induction fs as [|flt rest IH]; simpl; [reflexivity|].
  intro H. apply andb_true_iff in H as [H1 H2].
  rewrite (skipped_filter_step st flt H1), bind_ret. exact (IH H2).
Qed.

(** C6 (counterexample): a ["_key"] condition without an operator is not
    skipped: it compiles to the key condition [{eq: "abc"}], while the empty
    list compiles to a [null] key condition. *)
Lemma key_condition_without_operator_not_skipped :
  compile_filters (Some [JObj [("field", JStr "_key"); ("value", JStr "abc")]]) =
    ([], Ok {| c_key := Some (JObj [("eq", JStr "abc")]); c_relation := None; c_where := [] |}) /\
  compile_filters (Some []) = ([], Ok empty_compiled).
Proof. split; vm_compute; reflexivity. Qed.

(** C6 (amended): a condition with no operator or an [undefined] value, on
    an absent field or a field other than ["_key"] without ["relation."]
    ([skipped_condition]), is skipped without error: it leaves [where], the
    key condition and the relation condition unchanged, and a list of only
    such conditions compiles like the empty list, to [where = {}] and
    [null] key and relation conditions.  A ["_key"] condition is not
    skipped: it sets the key condition to [{(operator || 'eq'): value}]. *)
Theorem skipped_conditions :
  (forall st flt, skipped_condition flt = true -> filter_step st flt = ([], Ok st)) /\
  (forall fs, forallb skipped_condition fs = true ->
     compile_filters (Some fs) = compile_filters (Some [])) /\
  compile_filters (Some []) = ([], Ok empty_compiled) /\
  compile_filters None = ([], Ok empty_compiled) /\
  (forall st flt, is_nullish flt = false -> get_field flt "field" = JStr "_key" ->
     has_condition (get_field flt "operator") (get_field flt "value") = false ->
     filter_step st flt =
       ([], Ok {| c_key := Some (JObj [(to_str (js_or (get_field flt "operator") (JStr "eq")),
                                        get_field flt "value")]);
                  c_relation := c_relation st; c_where := c_where st |})).
Proof.
  split; [exact skipped_filter_step|].
  split; [intros fs H; exact (foldM_skipped fs empty_compiled H)|].
  split; [reflexivity|]. split; [reflexivity|].
  intros st flt Hn Hf Hc. apply key_filter_step.
  unfold routes_to_key. rewrite Hn, Hf. simpl.
  unfold has_condition in Hc.
  destruct (get_field flt "value"); try reflexivity.
  simpl in Hc. rewrite andb_true_r in Hc.
  destruct (get_field flt "operator") as [| | | |o| |]; try reflexivity; try discriminate.
  simpl in Hc. apply negb_false_iff, String.eqb_eq in Hc. subst. reflexivity.
Qed.

(** ** The synthesised [getList] document *)

(** The key and relation declarations (and their count counterparts) are
    in the declaration list exactly when the respective condition is
    non-null ([hasKey], [hasRelationWhere]). *)
Lemma queryVariables_conditional resource hasKey hasRelationWhere :
  let R := toUpperCase resource in
  (In ("$_key: " ++ R ++ "LIST_KEY_CONDITION")
      (queryVariables_list resource hasKey hasRelationWhere) <-> hasKey = true) /\
  (In ("$_keyCount: " ++ R ++ "LIST_COUNT_KEY_CONDITION")
      (queryVariables_list resource hasKey hasRelationWhere) <-> hasKey = true) /\
  (In ("$relationWhere: " ++ R ++ "_WHERE_RELATION_FILTER_CONDITION")
      (queryVariables_list resource hasKey hasRelationWhere) <-> hasRelationWhere = true) /\
  (In ("$relationWhereCount: " ++ R ++ "_WHERE_RELATION_FILTER_CONDITION")
      (queryVariables_list resource hasKey hasRelationWhere) <-> hasRelationWhere = true).
Proof.
  intro R. unfold queryVariables_list. fold R.
  destruct hasKey, hasRelationWhere; simpl;
    repeat split; intros; try discriminate; auto 20;
    repeat match goal with
           | H : _ \/ _ |- _ => destruct H as [H|H]
           | H : False |- _ => contradiction
           | H : _ = _ |- _ => discriminate H
           end.
Qed.

(** C5: a filter on a plain field named ["relation"] (no ["relation."]
    marker, not ["_key"], not composite) is taken for a relation
    condition: the document declares [$relationWhere] and
    [$relationWhereCount], the variables carry [relationWhere = {eq: "x"}],
    and [where] stays empty. *)
Theorem plain_relation_field_declares_relationWhere :
  match getList_request (fun s => s ++ "s") "product"
          (Some [mk_filter (JStr "relation") (JStr "eq") (JStr "x")]) None JUndef JUndef with
  | (_, Ok (q, vars)) =>
      includes q "$relationWhere: PRODUCT_WHERE_RELATION_FILTER_CONDITION" = true /\
      includes q "$relationWhereCount: PRODUCT_WHERE_RELATION_FILTER_CONDITION" = true /\
      get_field vars "relationWhere" = JObj [("eq", JStr "x")] /\
      get_field vars "where" = JObj []
  | _ => False
  end.
Proof. vm_compute. repeat split. Qed.

(** ** The sorter reduce *)

(** A refine [CrudSort] [{field, order}]. *)
Definition mk_sorter (p : string * string) : jsval :=
  JObj [("field", JStr (fst p)); ("order", JStr (snd p))].

(** The order of the last sorter on field [k] with a non-empty order. *)
Definition last_order (k : string) (l : list (string * string)) : option string :=
  match rev (filter (fun p => String.eqb (fst p) k && negb (String.eqb (snd p) "")) l) with
  | [] => None
  | p :: _ => Some (snd p)
  end.

Definition sort_entry (acc : list (string * jsval)) (p : string * string)
  : list (string * jsval) :=
  if negb (String.eqb (fst p) "") && negb (String.eqb (snd p) "")
  then set_prop acc (fst p) (JStr (toUpperCase (snd p))) else acc.

Lemma sort_step_sorter acc p :
  sort_step acc (mk_sorter p) = ret (sort_entry acc p).
Proof.
  destruct p as [f o]. unfold sort_step, sort_entry, mk_sorter. cbn [is_nullish fst snd].
  assert (Hf : get_field (JObj [("field", JStr f); ("order", JStr o)]) "field" = JStr f)
    by reflexivity.
  assert (Ho : get_field (JObj [("field", JStr f); ("order", JStr o)]) "order" = JStr o)
    by reflexivity.
  rewrite Hf, Ho.
  cbn [truthy fst snd to_str]. destruct (negb (f =? "") && negb (o =? "")); reflexivity.
Qed.

Lemma foldM_sort_step l acc :
  foldM sort_step (map mk_sorter l) acc = ret (fold_left sort_entry l acc).
Proof.
  revert acc. induction l as [|p rest IH]; intro acc; [reflexivity|].
  simpl map. simpl foldM. simpl fold_left. rewrite sort_step_sorter.
  unfold ret at 1. rewrite bind_ret. apply IH.
Qed.

Lemma assoc_get_set_prop kvs k v k' :
  assoc_get (set_prop kvs k v) k' = if String.eqb k' k then v else assoc_get kvs k'.
Proof.
  induction kvs as [|[k0 v0] rest IH]; simpl.
  - destruct (String.eqb k' k); reflexivity.
  - destruct (String.eqb_spec k k0) as [->|Hne]; simpl.
    + destruct (String.eqb k' k0); reflexivity.
    + rewrite IH. destruct (String.eqb_spec k' k0) as [->|]; [|reflexivity].
      destruct (String.eqb_spec k0 k); [congruence|reflexivity].
Qed.

Lemma NoDup_snoc {A} (l : list A) x : NoDup l -> ~ In x l -> NoDup (l ++ [x]).
Proof.
  induction l as [|y l IH]; simpl; intros Hd Hn.
  - constructor; [auto|constructor].
  - inversion Hd; subst. constructor.
    + rewrite in_app_iff. simpl. intuition.
    + apply IH; auto.
Qed.

Lemma set_prop_keys kvs k v :
  NoDup (map fst kvs) -> NoDup (map fst (set_prop kvs k v)).
Proof.
  assert (H : map fst (set_prop kvs k v) = map fst kvs \/
              (map fst (set_prop kvs k v) = app (map fst kvs) [k] /\ ~ In k (map fst kvs))).
  { induction kvs as [|[k0 v0] rest IH]; simpl; [right; auto|].
    destruct (String.eqb_spec k k0) as [->|Hne]; simpl; [left; reflexivity|].
    destruct IH as [-> | [-> Hn]]; [left; reflexivity|right; split; [reflexivity|]].
    intros [|]; auto. }
  intro Hd. destruct H as [-> | [-> Hn]]; [exact Hd|apply NoDup_snoc; auto].
Qed.

Lemma sort_fold_keys l acc :
  NoDup (map fst acc) -> NoDup (map fst (fold_left sort_entry l acc)).
Proof.
  revert acc. induction l as [|p rest IH]; intros acc Hd; simpl; [exact Hd|].
  apply IH. unfold sort_entry. destruct (_ && _); [apply set_prop_keys|]; exact Hd.
Qed.

Lemma sort_fold_lookup l k :
  k <> "" ->
  assoc_get (fold_left sort_entry l []) k =
    match last_order k l with Some o => JStr (toUpperCase o) | None => JUndef end.
Proof.
  intro Hk. induction l as [|p l IH] using rev_ind; [reflexivity|].
  rewrite fold_left_app. simpl. unfold sort_entry at 1, last_order.
  rewrite filter_app, rev_app_distr. simpl.
  destruct p as [f o]. simpl.
  destruct (String.eqb_spec f k) as [->|Hne]; simpl.
  - apply String.eqb_neq in Hk. rewrite Hk. simpl.
    destruct (o =? "") eqn:Ho; simpl.
    + exact IH.
    + rewrite assoc_get_set_prop, String.eqb_refl. reflexivity.
  - destruct (negb (f =? "") && negb (o =? "")).
    + rewrite assoc_get_set_prop. apply String.eqb_neq in Hne.
      rewrite String.eqb_sym, Hne. exact IH.
    + exact IH.
Qed.

(** C7: for every list of sorters [{field, order}], [sort] is one object
    keyed by field name (no key twice); the value of a field is the
    upper-cased order of the last sorter on that field (sorters with an
    empty field or order are ignored).  On
    [[{price, asc}; {price, desc}]] it is [{price: "DESC"}]. *)
Theorem sort_last_wins :
  (forall l, exists kvs,
     sort_of (Some (map mk_sorter l)) = ([], Ok (JObj kvs)) /\
     NoDup (map fst kvs) /\
     forall k, k <> "" ->
       assoc_get kvs k = match last_order k l with
                         | Some o => JStr (toUpperCase o) | None => JUndef end) /\
  sort_of (Some (map mk_sorter [("price", "asc"); ("price", "desc")])) =
    ([], Ok (JObj [("price", JStr "DESC")])).
Proof.
  split; [|vm_compute; reflexivity].
  intro l. exists (fold_left sort_entry l []).
  unfold sort_of. rewrite foldM_sort_step. unfold ret. rewrite bind_ret.
  split; [reflexivity|]. split.
  - apply sort_fold_keys. constructor.
  - apply sort_fold_lookup.
Qed.

(** ** The backend's error array in [deleteOne] and [custom] *)

(** The rejection built from [response.data.errors]:
    [{message: errors.map(e => e.message).join(', '), statusCode: 400}]. *)
Definition errors_rejection (errs : list jsval) : jsval :=
  JObj [("message", JStr (join ", " (map (fun e => join_elem (get_field e "message")) errs)));
        ("statusCode", JNum 400)].

Lemma error_messages_objects errs :
  Forall (fun e => is_nullish e = false) errs ->
  error_messages errs = ([], Ok (map (fun e => get_field e "message") errs)).
Proof.
  induction 1 as [|e rest He _ IH]; [reflexivity|].
  simpl. rewrite He, IH. reflexivity.
Qed.

Lemma data_errors_reject data errs :
  get_field data "errors" = JArr errs ->
  Forall (fun e => is_nullish e = false) errs ->
  data_errors_check data = ([], Ok (Some (Rejected (errors_rejection errs)))).
Proof.
  intros He Hf. unfold data_errors_check. rewrite He, (error_messages_objects _ Hf).
  rewrite bind_ret. unfold errors_rejection. rewrite map_map. reflexivity.
Qed.

(** Both operations, for any error array of non-null entries. *)
Lemma errors_payload_rejects :
  (forall singular client_mutation onT resource id resp errs,
     client_mutation (JStr (deleteOne_document singular resource)) (JObj [("ids", JArr [id])])
       = Ok resp ->
     r_error resp = None ->
     get_field (r_data resp) "errors" = JArr errs ->
     Forall (fun e => is_nullish e = false) errs ->
     deleteOne singular client_mutation onT resource id = ([], Rejected (errors_rejection errs))) /\
  (forall client_query client_mutation onT filters meta vars resp errs,
     xorb (truthy (get_field meta "gqlQuery")) (truthy (get_field meta "gqlMutation")) = true ->
     custom_variables filters meta = ([], Ok vars) ->
     (if truthy (get_field meta "gqlQuery")
      then client_query (get_field meta "gqlQuery") vars
      else client_mutation (get_field meta "gqlMutation") vars) = Ok resp ->
     r_error resp = None ->
     get_field (r_data resp) "errors" = JArr errs ->
     Forall (fun e => is_nullish e = false) errs ->
     custom client_query client_mutation onT filters meta = ([], Rejected (errors_rejection errs))).
Proof.
  split.
  - intros singular cm onT resource id resp errs Hcall Hr He Hf.
    unfold deleteOne, deleteOne_body. rewrite Hcall. unfold await_ at 1. rewrite bind_ret.
    rewrite Hr, (data_errors_reject _ _ He Hf), bind_ret. reflexivity.
  - intros cq cm onT filters meta vars resp errs Hx Hv Hcall Hr He Hf.
    unfold custom, custom_body.
    destruct (truthy (get_field meta "gqlQuery")), (truthy (get_field meta "gqlMutation"));
      try discriminate Hx; cbn [andb negb];
      rewrite Hv, bind_ret, Hcall; unfold await_ at 1; rewrite bind_ret;
      rewrite Hr, (data_errors_reject _ _ He Hf), bind_ret; reflexivity.
Qed.

(** The delete transport of the example: the backend refuses the delete
    with its own error array and no transport error. *)
Definition refused_delete (_ _ : jsval) : exn Response :=
  Ok {| r_error := None;
        r_data := JObj [("errors", JArr [JObj [("message", JStr "1 relations exist")]]);
                        ("deleteProduct", JNull)] |}.

(** C8: when the transport reports no error and [data.errors] is a
    non-empty array of error objects, [deleteOne] and [custom] reject with
    the messages joined by ", " and statusCode 400 (never resolve), calling
    no callback; a delete answered with [data.errors = [{message: "1
    relations exist"}]] rejects with [{message: "1 relations exist",
    statusCode: 400}]. *)
Theorem nonempty_data_errors_reject :
  (forall singular client_mutation onT resource id resp errs,
     client_mutation (JStr (deleteOne_document singular resource)) (JObj [("ids", JArr [id])])
       = Ok resp ->
     r_error resp = None ->
     get_field (r_data resp) "errors" = JArr errs -> errs <> [] ->
     Forall (fun e => is_nullish e = false) errs ->
     deleteOne singular client_mutation onT resource id =
       ([], Rejected (JObj [("message", JStr (join ", "
                              (map (fun e => join_elem (get_field e "message")) errs)));
                            ("statusCode", JNum 400)]))) /\
  (forall client_query client_mutation onT filters meta vars resp errs,
     xorb (truthy (get_field meta "gqlQuery")) (truthy (get_field meta "gqlMutation")) = true ->
     custom_variables filters meta = ([], Ok vars) ->
     (if truthy (get_field meta "gqlQuery")
      then client_query (get_field meta "gqlQuery") vars
      else client_mutation (get_field meta "gqlMutation") vars) = Ok resp ->
     r_error resp = None ->
     get_field (r_data resp) "errors" = JArr errs -> errs <> [] ->
     Forall (fun e => is_nullish e = false) errs ->
     custom client_query client_mutation onT filters meta =
       ([], Rejected (JObj [("message", JStr (join ", "
                              (map (fun e => join_elem (get_field e "message")) errs)));
                            ("statusCode", JNum 400)]))) /\
  (forall onT,
     deleteOne (fun s => s) refused_delete onT "product" (JStr "p1") =
       ([], Rejected (JObj [("message", JStr "1 relations exist"); ("statusCode", JNum 400)]))).
Proof.
  destruct errors_payload_rejects as [Hd Hc]. split; [|split].
  - intros. eapply Hd; eauto.
  - intros. eapply Hc; eauto.
  - intro onT. destruct onT; vm_compute; reflexivity.
Qed.

Lemma error_messages_nullish pre x post :
  Forall (fun e => is_nullish e = false) pre -> is_nullish x = true ->
  error_messages (app pre (x :: post)) = ([], Throw (read_error x "message")).
Proof.
  induction 1 as [|e rest He _ IH]; intro Hx.
  - simpl. rewrite Hx. reflexivity.
  - simpl. rewrite He, (IH Hx). reflexivity.
Qed.

Lemma data_errors_nullish data pre x post :
  get_field data "errors" = JArr (app pre (x :: post)) ->
  Forall (fun e => is_nullish e = false) pre -> is_nullish x = true ->
  data_errors_check data = ([], Throw (read_error x "message")).
Proof.
  intros He Hf Hx. unfold data_errors_check. rewrite He, (error_messages_nullish _ _ _ Hf Hx).
  reflexivity.
Qed.

Lemma boundary_read_error dflt x prop :
  catch_boundary dflt (read_error x prop) =
    Rejected (JObj [("message", JStr ("Cannot read properties of " ++ to_str x ++
                                       " (reading '" ++ prop ++ "')"));
                    ("statusCode", JNum 500)]).
Proof. unfold read_error. apply boundary_type_error. cbn. discriminate. Qed.

(** A delete answered with no transport error and [data.errors = [null]]. *)
Definition null_entry_delete (_ _ : jsval) : exn Response :=
  Ok {| r_error := None; r_data := JObj [("errors", JArr [JNull])] |}.

(** C10 (counterexample): not every array gives statusCode 400: with
    [data.errors = [null]], reading [err.message] of the entry throws a
    [TypeError], and [deleteOne] rejects with statusCode 500. *)
Lemma data_errors_null_entry_rejects_500 :
  deleteOne (fun s => s) null_entry_delete true "product" (JStr "p1") =
    ([], Rejected (JObj [("message", JStr "Cannot read properties of null (reading 'message')");
                         ("statusCode", JNum 500)])).
Proof. vm_compute. reflexivity. Qed.

(** C10 (amended): when the transport reports no error and [data.errors]
    is an array, [deleteOne] and [custom] reject.  If no entry is [null] or
    [undefined], the rejection has statusCode 400 and the entries' messages
    joined by ", "; so an empty array still rejects, with the empty
    message.  If an entry is [null] or [undefined], reading the [message]
    of the first such entry throws, and the rejection has statusCode 500
    and that [TypeError]'s message. *)
Theorem data_errors_array_rejects :
  (forall singular client_mutation onT resource id resp errs,
     client_mutation (JStr (deleteOne_document singular resource)) (JObj [("ids", JArr [id])])
       = Ok resp ->
     r_error resp = None ->
     get_field (r_data resp) "errors" = JArr errs ->
     (Forall (fun e => is_nullish e = false) errs ->
      deleteOne singular client_mutation onT resource id =
        ([], Rejected (JObj [("message", JStr (join ", "
                               (map (fun e => join_elem (get_field e "message")) errs)));
                             ("statusCode", JNum 400)]))) /\
     (errs = [] ->
      deleteOne singular client_mutation onT resource id =
        ([], Rejected (JObj [("message", JStr ""); ("statusCode", JNum 400)]))) /\
     (forall pre x post, errs = app pre (x :: post) ->
      Forall (fun e => is_nullish e = false) pre -> is_nullish x = true ->
      deleteOne singular client_mutation onT resource id =
        ([], Rejected (JObj [("message", JStr ("Cannot read properties of " ++ to_str x ++
                                               " (reading 'message')"));
                             ("statusCode", JNum 500)])))) /\
  (forall client_query client_mutation onT filters meta vars resp errs,
     xorb (truthy (get_field meta "gqlQuery")) (truthy (get_field meta "gqlMutation")) = true ->
     custom_variables filters meta = ([], Ok vars) ->
     (if truthy (get_field meta "gqlQuery")
      then client_query (get_field meta "gqlQuery") vars
      else client_mutation (get_field meta "gqlMutation") vars) = Ok resp ->
     r_error resp = None ->
     get_field (r_data resp) "errors" = JArr errs ->
     (Forall (fun e => is_nullish e = false) errs ->
      custom client_query client_mutation onT filters meta =
        ([], Rejected (JObj [("message", JStr (join ", "
                               (map (fun e => join_elem (get_field e "message")) errs)));
                             ("statusCode", JNum 400)]))) /\
     (errs = [] ->
      custom client_query client_mutation onT filters meta =
        ([], Rejected (JObj [("message", JStr ""); ("statusCode", JNum 400)]))) /\
     (forall pre x post, errs = app pre (x :: post) ->
      Forall (fun e => is_nullish e = false) pre -> is_nullish x = true ->
      custom client_query client_mutation onT filters meta =
        ([], Rejected (JObj [("message", JStr ("Cannot read properties of " ++ to_str x ++
                                               " (reading 'message')"));
                             ("statusCode", JNum 500)])))).
Proof.
  destruct errors_payload_rejects as [Hd Hc]. split.
  - intros singular cm onT resource id resp errs Hcall Hr He.
    split; [|split].
    + intro Hf. exact (Hd singular cm onT resource id resp errs Hcall Hr He Hf).
    + intros ->. exact (Hd singular cm onT resource id resp [] Hcall Hr He (Forall_nil _)).
    + intros pre x post -> Hf Hx.
      unfold deleteOne, deleteOne_body. rewrite Hcall. unfold await_ at 1. rewrite bind_ret.
      rewrite Hr, (data_errors_nullish _ _ _ _ He Hf Hx), bind_throw.
      unfold run_op. rewrite boundary_read_error. reflexivity.
  - intros cq cm onT filters meta vars resp errs Hx Hv Hcall Hr He.
    split; [|split].
    + intro Hf. exact (Hc cq cm onT filters meta vars resp errs Hx Hv Hcall Hr He Hf).
    + intros ->. exact (Hc cq cm onT filters meta vars resp [] Hx Hv Hcall Hr He (Forall_nil _)).
    + intros pre x post -> Hf Hn.
      unfold custom, custom_body.
      destruct (truthy (get_field meta "gqlQuery")), (truthy (get_field meta "gqlMutation"));
        try discriminate Hx; cbn [andb negb];
        rewrite Hv, bind_ret, Hcall; unfold await_ at 1; rewrite bind_ret;
        rewrite Hr, (data_errors_nullish _ _ _ _ He Hf Hn), bind_throw;
        unfold run_op; rewrite boundary_read_error; reflexivity.
Qed.

(** ** The caller-supplied mutation of [create] and [update] *)

(** The failures [handleGraphQLError] treats as authentication failures:
    a network error with status 401 or 403, or (with no network error) a
    GraphQL error whose message carries one of the keywords. *)
Definition auth_failure (e : CombinedError) : bool :=
  match ce_networkError e with
  | Some ne => is_auth_status (embedded_status ne)
  | None => existsb has_auth_keyword (ce_graphQLErrors e)
  end.

Lemma handleGraphQLError_no_callback err :
  fst (handleGraphQLError err false) = [].
Proof.
  destruct err as [e|]; [|reflexivity]. simpl.
  destruct (ce_networkError e) as [ne|]; [destruct (is_auth_status _); reflexivity|].
  destruct (ce_graphQLErrors e); [reflexivity|]. destruct (existsb _ _); reflexivity.
Qed.

Lemma auth_failure_403 e :
  auth_failure e = true -> he_statusCode (snd (handleGraphQLError (Some e) false)) = JNum 403.
Proof.
  unfold auth_failure. simpl. destruct (ce_networkError e) as [ne|].
  - intro H. rewrite H. reflexivity.
  - destruct (ce_graphQLErrors e) as [|m ms]; [discriminate|]. intro H. rewrite H. reflexivity.
Qed.

Lemma raw_mutation_run (cm : jsval -> jsval -> exn Response) (dflt opname resource : string) variables meta :
  run_op dflt (raw_mutation cm opname resource variables meta) =
  match cm (get_field meta "gqlMutation")
           (if truthy variables then variables else get_field meta "variables") with
  | Ok resp =>
      match r_error resp with
      | Some e => ([], Rejected (http_js (snd (handleGraphQLError (Some e) false))))
      | None => ([], Resolved (JObj [("data",
                   js_coalesce (get_field (get_field (r_data resp)
                                  (opname ++ capitalize resource)) "data") (JObj []))]))
      end
  | Throw x => ([], catch_boundary dflt x)
  end.
Proof.
  unfold raw_mutation. cbv zeta.
  destruct (cm _ _) as [resp|x]; [|reflexivity].
  unfold await_ at 1. rewrite bind_ret.
  destruct (r_error resp) as [e|]; [|reflexivity].
  unfold reject_classified.
  pose proof (handleGraphQLError_no_callback (Some e)) as H.
  destruct (handleGraphQLError (Some e) false) as [lg h]. simpl in H. subst lg. reflexivity.
Qed.

(** C9: with a truthy [meta.gqlMutation], [create] and [update] never
    invoke the session-expiry callback (their log is empty whatever
    [onTokenExpired] is and whatever the transport answers); when the
    transport reports an error [e], they reject with
    [handleGraphQLError(e)] classified without the callback, whose
    statusCode is still 403 for a 401/403 network error or an
    authentication keyword. *)
Theorem raw_mutation_skips_callback singular client_mutation onT resource id variables meta :
  truthy (get_field meta "gqlMutation") = true ->
  fst (create singular client_mutation onT resource variables meta) = [] /\
  fst (update singular client_mutation onT resource id variables meta) = [] /\
  (forall resp e,
     client_mutation (get_field meta "gqlMutation")
       (if truthy variables then variables else get_field meta "variables") = Ok resp ->
     r_error resp = Some e ->
     snd (create singular client_mutation onT resource variables meta) =
       Rejected (http_js (snd (handleGraphQLError (Some e) false))) /\
     snd (update singular client_mutation onT resource id variables meta) =
       Rejected (http_js (snd (handleGraphQLError (Some e) false))) /\
     (auth_failure e = true ->
      he_statusCode (snd (handleGraphQLError (Some e) false)) = JNum 403)).
Proof.
  intro Hm.
  assert (Hc : create singular client_mutation onT resource variables meta =
               run_op ("Failed to create " ++ resource)
                 (raw_mutation client_mutation "create" resource variables meta))
    by (unfold create, create_body; rewrite Hm; reflexivity).
  assert (Hu : update singular client_mutation onT resource id variables meta =
               run_op ("Failed to update " ++ resource ++ " with id " ++ to_str id)
                 (raw_mutation client_mutation "update" resource variables meta))
    by (unfold update, update_body; rewrite Hm; reflexivity).
  rewrite Hc, Hu, !raw_mutation_run.
  split; [|split].
  - destruct (client_mutation _ _) as [resp|]; [destruct (r_error resp)|]; reflexivity.
  - destruct (client_mutation _ _) as [resp|]; [destruct (r_error resp)|]; reflexivity.
  - intros resp e Hcall He. rewrite Hcall, He.
    split; [reflexivity|split; [reflexivity|apply auth_failure_403]].
Qed.

(** A raw [createProduct] mutation whose transport fails with a 401
    network error, with a callback supplied. *)
Definition expired_transport (_ _ : jsval) : exn Response :=
  Ok {| r_error := Some {| ce_message := "[Network] Unauthorized";
                           ce_networkError := Some {| ne_message := "Unauthorized";
                                                      ne_statusCode := JNum 401;
                                                      ne_status := JUndef |};
                           ce_graphQLErrors := [] |};
        r_data := JUndef |}.

Definition raw_create_meta : jsval :=
  JObj [("gqlMutation", JStr "mutation { createProduct { id } }")].

Lemma raw_mutation_skips_callback_witness :
  fst (create (fun s => s) expired_transport true "products" JUndef raw_create_meta) = [] /\
  snd (create (fun s => s) expired_transport true "products" JUndef raw_create_meta) =
    Rejected (JObj [("message", JStr "Token expired. Please login again.");
                    ("statusCode", JNum 403)]).
Proof.
  destruct (raw_mutation_skips_callback (fun s => s) expired_transport true "products"
              (JStr "1") JUndef raw_create_meta eq_refl) as [H1 [_ H3]].
  destruct (H3 _ _ eq_refl eq_refl) as [H4 _].
  split; [exact H1|]. rewrite H4. reflexivity.
Defined.

(** * Further properties of the provider *)

(** ** When the session-expiry callback runs *)

(** A computation that invokes no callback. *)
Definition quiet {A} (m : M A) : Prop := fst m = [].

(** The callback runs at most once, and only on a rejection with
    statusCode 403. *)
Definition callback_ok (m : M outcome) : Prop :=
  fst m = [] \/
  (fst m = [SessionExpired] /\
   exists msg, snd m = Ok (Rejected (JObj [("message", JStr msg); ("statusCode", JNum 403)]))).

Definition callback_only_on_403 (r : list event * outcome) : Prop :=
  fst r = [] \/
  (fst r = [SessionExpired] /\
   exists msg, snd r = Rejected (JObj [("message", JStr msg); ("statusCode", JNum 403)])).

Lemma bind_quiet {A B} (m : M A) (k : A -> M B) :
  quiet m -> (forall a, quiet (k a)) -> quiet (bind m k).
Proof.
  unfold quiet. destruct m as [lg [a|e]]; simpl; intros Hm Hk; subst; [|reflexivity].
  specialize (Hk a). destruct (k a). simpl in *. exact Hk.
Qed.

Lemma bind_callback_ok {A} (m : M A) (k : A -> M outcome) :
  quiet m -> (forall a, callback_ok (k a)) -> callback_ok (bind m k).
Proof.
  unfold quiet, callback_ok. destruct m as [lg [a|e]]; simpl; intros Hm Hk; subst; [|left; reflexivity].
  specialize (Hk a). destruct (k a). simpl in *. exact Hk.
Qed.

Lemma quiet_callback_ok (m : M outcome) : quiet m -> callback_ok m.
Proof. intro H. left. exact H. Qed.

Lemma ret_quiet {A} (a : A) : quiet (ret a).
Proof. reflexivity. Qed.

Lemma throw_quiet {A} (e : jsval) : quiet (A := A) (throw e).
Proof. reflexivity. Qed.

Lemma await_quiet {A} (r : exn A) : quiet (await_ r).
Proof. reflexivity. Qed.

Lemma foldM_quiet {A B} (f : A -> B -> M A) l acc :
  (forall acc x, quiet (f acc x)) -> quiet (foldM f l acc).
Proof.
  intro Hf. revert acc. induction l as [|x rest IH]; intro acc; [reflexivity|].
  simpl. apply bind_quiet; auto.
Qed.

Lemma reject_classified_callback_ok e cb : callback_ok (reject_classified e cb).
Proof.
  unfold reject_classified, callback_ok. simpl.
  destruct (ce_networkError e) as [ne|].
  - destruct (is_auth_status _); [destruct cb|]; simpl;
      first [left; reflexivity | right; split; [reflexivity | eexists; reflexivity]].
  - destruct (ce_graphQLErrors e); [left; reflexivity|].
    destruct (existsb _ _); [destruct cb|]; simpl;
      first [left; reflexivity | right; split; [reflexivity | eexists; reflexivity]].
Qed.

Lemma reject_classified_quiet e : quiet (reject_classified e false).
Proof.
  unfold reject_classified, quiet.
  pose proof (handleGraphQLError_no_callback (Some e)) as H.
  destruct (handleGraphQLError (Some e) false). exact H.
Qed.

Lemma run_op_callback dflt body :
  callback_ok body -> callback_only_on_403 (run_op dflt body).
Proof.
  unfold callback_ok, callback_only_on_403, run_op.
  destruct body as [lg [o|e]]; simpl.
  - intros [H|[H [msg Hm]]]; [left; exact H|right; split; [exact H|]].
    exists msg. congruence.
  - intros [H|[H [msg Hm]]]; [left; exact H|discriminate].
Qed.



Create HintDb quiet.
#[local] Hint Resolve ret_quiet throw_quiet await_quiet reject_classified_quiet : quiet.

Ltac quiet_tac :=
  repeat first
    [ progress cbv zeta
    | apply bind_quiet; [|intro]
    | apply bind_callback_ok; [|intro]
    | apply quiet_callback_ok; solve [eauto with quiet]
    | solve [eauto with quiet]
    | apply foldM_quiet; intros
    | match goal with
      | |- context [match ?x with _ => _ end] => destruct x
      end ].

Lemma destructure_quiet v : quiet (destructure v).
Proof. unfold destructure. quiet_tac. Qed.
#[local] Hint Resolve destructure_quiet : quiet.

Lemma adjust_field_quiet v : quiet (adjust_field v).
Proof. unfold adjust_field. quiet_tac. Qed.
#[local] Hint Resolve adjust_field_quiet : quiet.

Lemma nested_step_quiet n c : quiet (nested_step n c).
Proof. unfold nested_step. quiet_tac. Qed.
Lemma group_step_quiet n c : quiet (group_step n c).
Proof. unfold group_step. quiet_tac. Qed.
Lemma relation_check_quiet v : quiet (relation_check v).
Proof. unfold relation_check. quiet_tac. Qed.
#[local] Hint Resolve nested_step_quiet group_step_quiet relation_check_quiet : quiet.

Lemma composite_case_quiet f o v : quiet (composite_case f o v).
Proof. unfold composite_case. quiet_tac. Qed.
#[local] Hint Resolve composite_case_quiet : quiet.

Lemma processFilter_quiet v : quiet (processFilter v).
Proof. unfold processFilter. quiet_tac. Qed.
#[local] Hint Resolve processFilter_quiet : quiet.

Lemma filter_step_quiet st v : quiet (filter_step st v).
Proof. unfold filter_step. quiet_tac. Qed.
#[local] Hint Resolve filter_step_quiet : quiet.

Lemma compile_filters_quiet fs : quiet (compile_filters fs).
Proof. unfold compile_filters. quiet_tac. Qed.
Lemma sort_step_quiet acc v : quiet (sort_step acc v).
Proof. unfold sort_step. quiet_tac. Qed.
#[local] Hint Resolve compile_filters_quiet sort_step_quiet : quiet.

Lemma sort_of_quiet s : quiet (sort_of s).
Proof. unfold sort_of. quiet_tac. Qed.
Lemma join_fields_quiet f : quiet (join_fields f).
Proof. unfold join_fields. quiet_tac. Qed.
Lemma list_total_quiet r d : quiet (list_total r d).
Proof. unfold list_total. quiet_tac. Qed.
Lemma error_messages_quiet errs : quiet (error_messages errs).
Proof.
  induction errs as [|e rest IH]; simpl; [reflexivity|].
  destruct (is_nullish e); [reflexivity|]. apply bind_quiet; [exact IH|]. intro. reflexivity.
Qed.
#[local] Hint Resolve sort_of_quiet join_fields_quiet list_total_quiet error_messages_quiet : quiet.

Lemma data_errors_check_quiet d : quiet (data_errors_check d).
Proof. unfold data_errors_check. quiet_tac. Qed.
Lemma getList_request_quiet plural r f s p m : quiet (getList_request plural r f s p m).
Proof. unfold getList_request. quiet_tac. Qed.
Lemma custom_where_step_quiet acc v : quiet (custom_where_step acc v).
Proof. unfold custom_where_step. quiet_tac. Qed.
#[local] Hint Resolve data_errors_check_quiet getList_request_quiet custom_where_step_quiet : quiet.

Lemma custom_variables_quiet f m : quiet (custom_variables f m).
Proof. unfold custom_variables. quiet_tac. Qed.
#[local] Hint Resolve custom_variables_quiet : quiet.
#[local] Hint Resolve reject_classified_callback_ok : quiet.

Lemma try_catch_callback_ok body handler :
  callback_ok body -> callback_ok (try_catch body handler).
Proof.
  unfold callback_ok, try_catch. destruct body as [lg [o|e]]; simpl; [tauto|].
  intros [H|[H [msg Hm]]]; [left; exact H|discriminate].
Qed.

Section Operations.

Variable plural singular : string -> string.
Variable client_query client_mutation : jsval -> jsval -> exn Response.

Lemma getList_body_callback_ok onT r f s p m :
  callback_ok (getList_body plural client_query onT r f s p m).
Proof. unfold getList_body. quiet_tac. Qed.
Lemma getOne_body_callback_ok onT r id m :
  callback_ok (getOne_body singular client_query onT r id m).
Proof. unfold getOne_body. quiet_tac. Qed.
Lemma raw_mutation_callback_ok o r v m :
  callback_ok (raw_mutation client_mutation o r v m).
Proof. unfold raw_mutation. quiet_tac. Qed.
#[local] Hint Resolve raw_mutation_callback_ok : quiet.
Lemma create_body_callback_ok onT r v m :
  callback_ok (create_body singular client_mutation onT r v m).
Proof.
  unfold create_body. destruct (truthy _); [auto with quiet|].
  apply try_catch_callback_ok. unfold create_synth. quiet_tac.
Qed.
Lemma createMany_body_callback_ok onT r v m :
  callback_ok (createMany_body singular client_mutation onT r v m).
Proof. unfold createMany_body. quiet_tac. Qed.
Lemma update_body_callback_ok onT r id v m :
  callback_ok (update_body singular client_mutation onT r id v m).
Proof. unfold update_body. quiet_tac. Qed.
Lemma deleteOne_body_callback_ok onT r id :
  callback_ok (deleteOne_body singular client_mutation onT r id).
Proof. unfold deleteOne_body. quiet_tac. Qed.
Lemma custom_body_callback_ok onT f m :
  callback_ok (custom_body client_query client_mutation onT f m).
Proof. unfold custom_body. quiet_tac. Qed.

End Operations.

(** Every operation of the provider invokes the session-expiry callback at
    most once, and only when it rejects with a statusCode of 403 (the
    classifier's "Token expired" and "Authentication failed" errors); a
    resolved operation, or one rejected with any other status, never
    invokes it. *)
Theorem callback_only_on_auth_rejection plural singular client_query client_mutation onT :
  (forall r f s p m, callback_only_on_403 (getList plural client_query onT r f s p m)) /\
  (forall r id m, callback_only_on_403 (getOne singular client_query onT r id m)) /\
  (forall r v m, callback_only_on_403 (create singular client_mutation onT r v m)) /\
  (forall r v m, callback_only_on_403 (createMany singular client_mutation onT r v m)) /\
  (forall r id v m, callback_only_on_403 (update singular client_mutation onT r id v m)) /\
  (forall r id, callback_only_on_403 (deleteOne singular client_mutation onT r id)) /\
  (forall f m, callback_only_on_403 (custom client_query client_mutation onT f m)).
Proof.
  repeat split; intros; apply run_op_callback;
    auto using getList_body_callback_ok, getOne_body_callback_ok, create_body_callback_ok,
      createMany_body_callback_ok, update_body_callback_ok, deleteOne_body_callback_ok,
      custom_body_callback_ok.
Qed.

(** ** How [getList] merges several conditions *)

(** [field.startsWith('data.') ? field.replace('data.', '') : field] on a
    string field. *)
Definition strip_data (f : string) : string :=
  if startsWith f "data." then replace_first f "data." else f.

(** A value that is neither [undefined] nor an array. *)
Definition plain_value (v : jsval) : bool :=
  match v with JUndef | JArr _ => false | _ => true end.

(** A condition [{field: f, operator: op, value: v}] on a plain field:
    not ['_key'], no ['relation.'] marker, a non-empty operator, a value
    that is neither undefined nor an array, and a field that does not
    become ['_key'] or ['relation'] once ['data.'] is dropped. *)
Definition plain_condition (c : string * string * jsval) : bool :=
  let '(f, op, v) := c in
  negb (String.eqb f "_key") && negb (includes f "relation.") &&
  negb (String.eqb op "") && plain_value v &&
  negb (String.eqb (strip_data f) "_key") && negb (String.eqb (strip_data f) "relation").

Definition mk_condition (c : string * string * jsval) : jsval :=
  let '(f, op, v) := c in mk_filter (JStr f) (JStr op) v.

(** The condition the last plain filter on (stripped) field [a] gives. *)
Definition last_where (a : string) (l : list (string * string * jsval)) : jsval :=
  fold_left (fun acc c => let '(f, op, v) := c in
                          if String.eqb (strip_data f) a then JObj [(op, v)] else acc) l JUndef.

Lemma processFilter_plain f op v :
  plain_condition (f, op, v) = true ->
  processFilter (mk_filter (JStr f) (JStr op) v) = ret (JObj [(strip_data f, JObj [(op, v)])]).
Proof.
  unfold plain_condition. intro H.
  repeat rewrite andb_true_iff in H. destruct H as [[[[[Hk Hr] Ho] Hv] _] _].
  apply negb_true_iff in Hk, Hr, Ho.
  unfold processFilter, destructure, mk_filter. cbn [is_nullish].
  unfold ret at 1. rewrite bind_ret. cbn -[composite_case].
  assert (Hc : composite_case (JStr f) (JStr op) v = ret None)
    by (destruct v; try discriminate Hv; reflexivity).
  rewrite Hc. unfold ret at 1. rewrite bind_ret. cbn [is_eq]. rewrite Hk.
  unfold relation_check. rewrite Hr.
  assert (Hu : is_undef v = false) by (destruct v; try discriminate Hv; reflexivity).
  unfold has_condition. cbn [truthy]. rewrite Ho, Hu. reflexivity.
Qed.

Lemma dispatch_single st a x :
  a <> "_key" -> a <> "relation" -> truthy x = true ->
  dispatch st (JObj [(a, x)]) =
    {| c_key := c_key st; c_relation := c_relation st; c_where := set_prop (c_where st) a x |}.
Proof.
  intros Hk Hr Hx. unfold dispatch. cbn [get_field assoc_get].
  destruct (String.eqb_spec "_key" a) as [E|_]; [congruence|].
  destruct (String.eqb_spec "relation" a) as [E|_]; [congruence|].
  cbn [truthy]. destruct (String.eqb_spec "OR" a) as [<-|_]; [rewrite Hx; reflexivity|].
  destruct (String.eqb_spec "AND" a) as [<-|_]; [rewrite Hx; reflexivity|].
  reflexivity.
Qed.

Definition where_entry (w : list (string * jsval)) (c : string * string * jsval)
  : list (string * jsval) :=
  let '(f, op, v) := c in set_prop w (strip_data f) (JObj [(op, v)]).

Lemma foldM_plain l st :
  forallb plain_condition l = true ->
  foldM filter_step (map mk_condition l) st =
    ret {| c_key := c_key st; c_relation := c_relation st;
           c_where := fold_left where_entry l (c_where st) |}.
Proof.
  revert st. induction l as [|[[f op] v] rest IH]; intros st H; [destruct st; reflexivity|].
  simpl in H. apply andb_true_iff in H. destruct H as [Hc Hrest].
  simpl map. simpl foldM. unfold filter_step at 1. rewrite (processFilter_plain _ _ _ Hc).
  unfold ret at 1. rewrite bind_ret.
  unfold plain_condition in Hc. repeat rewrite andb_true_iff in Hc.
  destruct Hc as [[_ Hk] Hr]. apply negb_true_iff, String.eqb_neq in Hk, Hr.
  rewrite dispatch_single by auto. unfold ret at 1. rewrite bind_ret.
  rewrite IH by exact Hrest. reflexivity.
Qed.

Lemma where_fold_lookup l a :
  assoc_get (fold_left where_entry l []) a = last_where a l.
Proof.
  unfold last_where. induction l as [|c l IH] using rev_ind; [reflexivity|].
  rewrite !fold_left_app. simpl. destruct c as [[f op] v]. simpl.
  rewrite assoc_get_set_prop, IH. destruct (String.eqb_spec a (strip_data f)) as [->|Hne].
  - rewrite String.eqb_refl. reflexivity.
  - destruct (String.eqb_spec (strip_data f) a); [congruence|reflexivity].
Qed.

Lemma where_fold_keys l w :
  NoDup (map fst w) -> NoDup (map fst (fold_left where_entry l w)).
Proof.
  revert w. induction l as [|[[f op] v] rest IH]; intros w Hd; [exact Hd|].
  simpl. apply IH. apply set_prop_keys. exact Hd.
Qed.

(** In [getList], conditions on plain fields go into [where] by
    [Object.assign], one key per field: a later condition on the same
    field (after ['data.'] is dropped) replaces the earlier one instead of
    combining with it.  So [where] has one entry per field, holding the
    last condition given for it, and no key or relation condition is set;
    [price >= 10] followed by [price <= 20] sends only [price <= 20]. *)
Theorem getList_where_last_condition_wins (l : list (string * string * jsval)) :
  forallb plain_condition l = true ->
  exists c, compile_filters (Some (map mk_condition l)) = ([], Ok c) /\
    c_key c = None /\ c_relation c = None /\
    NoDup (map fst (c_where c)) /\
    forall a, assoc_get (c_where c) a = last_where a l.
Proof.
  intro H. eexists. unfold compile_filters. rewrite (foldM_plain _ _ H).
  split; [reflexivity|]. simpl. split; [reflexivity|]. split; [reflexivity|]. split.
  - apply where_fold_keys. constructor.
  - apply where_fold_lookup.
Qed.

Lemma getList_where_last_condition_wins_witness :
  forallb plain_condition [("data.price", "gte", JNum 10); ("price", "lte", JNum 20)] = true /\
  exists c, compile_filters (Some (map mk_condition
              [("data.price", "gte", JNum 10); ("price", "lte", JNum 20)])) = ([], Ok c) /\
    c_where c = [("price", JObj [("lte", JNum 20)])].
Proof.
  split; [vm_compute; reflexivity|].
  destruct (getList_where_last_condition_wins
              [("data.price", "gte", JNum 10); ("price", "lte", JNum 20)] eq_refl)
    as [c [Hc _]].
  exists c. split; [exact Hc|]. vm_compute in Hc. injection Hc as <-. reflexivity.
Defined.

(** A relation condition [{field: 'relation.' + p, operator: op, value: v}]
    with a non-empty operator and a value that is neither undefined nor an
    array. *)
Definition relation_condition (c : string * string * jsval) : bool :=
  let '(p, op, v) := c in negb (String.eqb op "") && plain_value v.

Definition mk_relation_condition (c : string * string * jsval) : jsval :=
  let '(p, op, v) := c in mk_filter (JStr ("relation." ++ p)) (JStr op) v.

(** The single top-level entry the relation case builds for the path [p]. *)
Definition relation_entry (p op : string) (v : jsval) : string * jsval :=
  match split_dot p with
  | [] => ("", JUndef)
  | [x] => (x, JObj [(op, v)])
  | h :: rest => (h, JObj (build_relation rest (Some (JObj [(op, v)]))))
  end.

(** The sub-condition the last relation filter whose path starts with
    [h] gives. *)
Definition last_relation (h : string) (l : list (string * string * jsval)) : jsval :=
  fold_left (fun acc c => let '(p, op, v) := c in
                          let e := relation_entry p op v in
                          if String.eqb (fst e) h then snd e else acc) l JUndef.

Lemma split_dot_aux_cons s acc : exists x rest, split_dot_aux s acc = x :: rest.
Proof.
  revert acc. induction s as [|c s IH]; intro acc; simpl; [eauto|].
  destruct (Ascii.eqb c "."%char); eauto.
Qed.

Lemma substring_0_all s m : String.length s <= m -> substring 0 m s = s.
Proof.
  revert m. induction s as [|c s IH]; intros m Hm; simpl.
  - destruct m; reflexivity.
  - destruct m as [|m]; simpl in Hm; [lia|]. rewrite IH by lia. reflexivity.
Qed.

Lemma replace_relation_marker p : replace_first ("relation." ++ p) "relation." = p.
Proof.
  cbn -[substring String.length]. cbn [String.length]. cbn [substring].
  replace (String.prefix "" p) with true by (destruct p; reflexivity).
  apply substring_0_all. lia.
Qed.

Lemma build_relation_entry p op v :
  build_relation (split_dot p) (Some (JObj [(op, v)])) = [relation_entry p op v].
Proof.
  unfold relation_entry. destruct (split_dot_aux_cons p "") as [x [rest E]].
  unfold split_dot. rewrite E. destruct rest; reflexivity.
Qed.

Lemma foldM_cons {A B} (f : A -> B -> M A) x l acc :
  foldM f (x :: l) acc = bind (f acc x) (fun acc' => foldM f l acc').
Proof. reflexivity. Qed.

Lemma processFilter_relation p op v :
  relation_condition (p, op, v) = true ->
  processFilter (mk_filter (JStr ("relation." ++ p)) (JStr op) v) =
    ret (JObj [("relation", JObj [relation_entry p op v])]).
Proof.
  unfold relation_condition. intro H. apply andb_true_iff in H. destruct H as [Ho Hv].
  apply negb_true_iff in Ho.
  unfold processFilter, destructure, mk_filter. cbn [is_nullish].
  unfold ret at 1. rewrite bind_ret. cbn -[composite_case append].
  assert (Hc : composite_case (JStr ("relation." ++ p)) (JStr op) v = ret None)
    by (destruct v; try discriminate Hv; reflexivity).
  rewrite Hc. unfold ret at 1. rewrite bind_ret. cbn -[append split_dot replace_first].
  replace ("relation." ++ p =? "_key") with false by reflexivity.
  replace (includes ("relation." ++ p) "relation.") with true by (destruct p; reflexivity).
  rewrite replace_relation_marker.
  assert (Hu : is_undef v = false) by (destruct v; try discriminate Hv; reflexivity).
  unfold has_condition. cbn [truthy]. rewrite Ho, Hu. cbn [negb andb].
  rewrite build_relation_entry. reflexivity.
Qed.

Lemma dispatch_relation st e :
  dispatch st (JObj [("relation", JObj [e])]) =
    {| c_key := c_key st;
       c_relation := Some (set_prop (match c_relation st with Some r => r | None => [] end)
                                    (fst e) (snd e));
       c_where := c_where st |}.
Proof. destruct e. reflexivity. Qed.

Definition relation_merge (r : list (string * jsval)) (c : string * string * jsval)
  : list (string * jsval) :=
  let '(p, op, v) := c in
  let e := relation_entry p op v in set_prop r (fst e) (snd e).

Lemma foldM_relation l st :
  forallb relation_condition l = true ->
  foldM filter_step (map mk_relation_condition l) st =
    ret {| c_key := c_key st;
           c_relation := match l with
                         | [] => c_relation st
                         | _ => Some (fold_left relation_merge l
                                        (match c_relation st with Some r => r | None => [] end))
                         end;
           c_where := c_where st |}.
Proof.
  revert st. induction l as [|[[p op] v] rest IH]; intros st H; [destruct st; reflexivity|].
  simpl in H. apply andb_true_iff in H. destruct H as [Hc Hrest].
  change (map mk_relation_condition ((p, op, v) :: rest))
    with (mk_filter (JStr ("relation." ++ p)) (JStr op) v :: map mk_relation_condition rest).
  rewrite foldM_cons. unfold filter_step at 1. rewrite (processFilter_relation _ _ _ Hc).
  unfold ret at 1. rewrite bind_ret. rewrite dispatch_relation. unfold ret at 1. rewrite bind_ret.
  rewrite IH by exact Hrest. simpl. destruct rest; reflexivity.
Qed.

Lemma relation_fold_lookup l h :
  assoc_get (fold_left relation_merge l []) h = last_relation h l.
Proof.
  unfold last_relation. induction l as [|c l IH] using rev_ind; [reflexivity|].
  rewrite !fold_left_app. simpl. destruct c as [[p op] v]. simpl.
  rewrite assoc_get_set_prop, IH. destruct (String.eqb_spec h (fst (relation_entry p op v))) as [->|Hne].
  - rewrite String.eqb_refl. reflexivity.
  - destruct (String.eqb_spec (fst (relation_entry p op v)) h); [congruence|reflexivity].
Qed.

(** Relation conditions ([field: 'relation.a.b...']) are merged into the
    relation condition by a shallow [Object.assign]: each filter contributes
    one entry keyed by the first segment of its path, and a later filter
    whose path starts with the same segment replaces the earlier entry as
    a whole.  So for every non-empty list of relation filters the relation
    condition holds, per first segment, the nested condition of the last
    filter on it; [relation.category.name] followed by
    [relation.category.slug] keeps only the [slug] condition.  [where] and
    the key condition stay empty. *)
Theorem relation_filters_merge_shallowly (l : list (string * string * jsval)) :
  forallb relation_condition l = true ->
  exists c, compile_filters (Some (map mk_relation_condition l)) = ([], Ok c) /\
    c_key c = None /\ c_where c = [] /\
    (c_relation c = None <-> l = []) /\
    forall h, assoc_get (match c_relation c with Some r => r | None => [] end) h =
              last_relation h l.
Proof.
  intro H. eexists. unfold compile_filters. rewrite (foldM_relation _ _ H).
  split; [reflexivity|]. simpl. split; [reflexivity|]. split; [reflexivity|]. split.
  - destruct l; split; congruence.
  - intro h. destruct l as [|c l]; [reflexivity|]. apply relation_fold_lookup.
Qed.

Lemma relation_filters_merge_shallowly_witness :
  forallb relation_condition
    [("category.name", "eq", JStr "Books"); ("category.slug", "eq", JStr "books")] = true /\
  exists c, compile_filters (Some (map mk_relation_condition
    [("category.name", "eq", JStr "Books"); ("category.slug", "eq", JStr "books")])) = ([], Ok c) /\
    c_relation c = Some [("category", JObj [("slug", JObj [("eq", JStr "books")])])].
Proof.
  split; [vm_compute; reflexivity|].
  destruct (relation_filters_merge_shallowly
              [("category.name", "eq", JStr "Books"); ("category.slug", "eq", JStr "books")] eq_refl)
    as [c [Hc _]].
  exists c. split; [exact Hc|]. vm_compute in Hc. injection Hc as <-. reflexivity.
Defined.

(** A sub-condition [{field: sf, operator: so, value: v}] of the
    [eq]-with-array case with a non-empty field and operator and a
    defined value. *)
Definition sub_condition_ok (c : string * string * jsval) : bool :=
  let '(sf, so, v) := c in negb (String.eqb sf "") && negb (String.eqb so "") && negb (is_undef v).

(** The value of the last sub-condition on field [sf] with operator [so]. *)
Definition last_sub (sf so : string) (l : list (string * string * jsval)) : jsval :=
  fold_left (fun acc c => let '(f, o, v) := c in
                          if String.eqb f sf && String.eqb o so then v else acc) l JUndef.

Definition nest_entry (n : list (string * jsval)) (c : string * string * jsval)
  : list (string * jsval) :=
  let '(f, o, v) := c in
  set_prop n f (JObj (set_prop (match assoc_get n f with JObj kvs => kvs | _ => [] end) o v)).

Lemma foldM_nested l n :
  forallb sub_condition_ok l = true ->
  foldM nested_step (map mk_condition l) n = ret (fold_left nest_entry l n).
Proof.
  revert n. induction l as [|[[f o] v] rest IH]; intros n H; [reflexivity|].
  simpl in H. apply andb_true_iff in H. destruct H as [Hc Hrest].
  unfold sub_condition_ok in Hc. repeat rewrite andb_true_iff in Hc.
  destruct Hc as [[Hf Ho] Hv].
  rewrite map_cons, foldM_cons. unfold nested_step at 1, destructure, mk_condition, mk_filter.
  cbn [is_nullish]. unfold ret at 1. rewrite bind_ret. cbn [get_field assoc_get String.eqb].
  cbn -[foldM set_prop assoc_get fold_left]. rewrite Hf, Ho, Hv. cbn [andb].
  unfold ret at 1. rewrite bind_ret. apply IH. exact Hrest.
Qed.

Lemma nest_fold_objects l k :
  assoc_get (fold_left nest_entry l []) k = JUndef \/
  exists kvs, assoc_get (fold_left nest_entry l []) k = JObj kvs.
Proof.
  induction l as [|c l IH] using rev_ind; [left; reflexivity|].
  rewrite fold_left_app. destruct c as [[f o] v]. simpl.
  rewrite assoc_get_set_prop. destruct (k =? f); [right; eauto|exact IH].
Qed.

Lemma nest_fold_lookup l sf so :
  get_field (assoc_get (fold_left nest_entry l []) sf) so = last_sub sf so l.
Proof.
  unfold last_sub. induction l as [|c l IH] using rev_ind; [reflexivity|].
  rewrite !fold_left_app. destruct c as [[f o] v]. simpl.
  rewrite assoc_get_set_prop. destruct (String.eqb_spec sf f) as [->|Hne].
  - rewrite String.eqb_refl. simpl. rewrite assoc_get_set_prop.
    destruct (String.eqb_spec so o) as [->|Hno].
    + rewrite String.eqb_refl. reflexivity.
    + destruct (String.eqb_spec o so) as [|_]; [congruence|]. simpl. rewrite <- IH.
      destruct (nest_fold_objects l f) as [E|[kvs E]]; rewrite E; reflexivity.
  - destruct (String.eqb_spec f sf); [congruence|]. simpl. exact IH.
Qed.

(** A condition with operator ['eq'] and an array value is the way
    [getList] combines several conditions on the fields of one object:
    the sub-conditions are gathered per sub-field, every operator given
    for a sub-field is kept beside the others (the last value wins for a
    repeated field and operator), and the whole is placed under the
    condition's field.  So [price >= 10] and [price <= 20] inside one
    [eq] condition are both kept. *)
Theorem eq_array_combines_conditions (F : string) (l : list (string * string * jsval)) :
  forallb sub_condition_ok l = true ->
  exists nested,
    processFilter (mk_filter (JStr F) (JStr "eq") (JArr (map mk_condition l))) =
      ([], Ok (JObj [(F, JObj nested)])) /\
    NoDup (map fst nested) /\
    forall sf so, get_field (assoc_get nested sf) so = last_sub sf so l.
Proof.
  intro H. exists (fold_left nest_entry l []).
  split; [|split].
  - unfold processFilter, destructure, mk_filter. cbn [is_nullish].
    unfold ret at 1. rewrite bind_ret. cbn [get_field assoc_get String.eqb].
    cbn -[foldM fold_left]. rewrite (foldM_nested _ _ H). reflexivity.
  - assert (G : forall n, NoDup (map fst n) -> NoDup (map fst (fold_left nest_entry l n))).
    { induction l as [|[[f o] v] rest IH]; intros n Hn; [exact Hn|].
      simpl in H. apply andb_true_iff in H. destruct H as [_ Hr].
      simpl. apply IH; [exact Hr|]. apply set_prop_keys. exact Hn. }
    apply G. constructor.
  - apply nest_fold_lookup.
Qed.

Lemma eq_array_combines_conditions_witness :
  forallb sub_condition_ok [("price", "gte", JNum 10); ("price", "lte", JNum 20)] = true /\
  processFilter (mk_filter (JStr "data") (JStr "eq")
    (JArr (map mk_condition [("price", "gte", JNum 10); ("price", "lte", JNum 20)]))) =
    ([], Ok (JObj [("data", JObj [("price", JObj [("gte", JNum 10); ("lte", JNum 20)])])])).
Proof.
  split; [vm_compute; reflexivity|].
  destruct (eq_array_combines_conditions "data"
              [("price", "gte", JNum 10); ("price", "lte", JNum 20)] eq_refl)
    as [n [Hp _]].
  rewrite Hp. vm_compute in Hp. injection Hp as <-. reflexivity.
Defined.

(** ** Input checks of [custom] *)

(** [custom] needs exactly one of [meta.gqlQuery] and [meta.gqlMutation]:
    with both, or with neither, it rejects with statusCode 400 before
    looking at the filters or calling the transport, and invokes no
    callback. *)
Theorem custom_needs_exactly_one_document client_query client_mutation onT filters meta :
  (truthy (get_field meta "gqlQuery") = true -> truthy (get_field meta "gqlMutation") = true ->
   custom client_query client_mutation onT filters meta =
     ([], Rejected (JObj [("message", JStr "Query and mutation cannot both be provided for custom operation");
                          ("statusCode", JNum 400)]))) /\
  (truthy (get_field meta "gqlQuery") = false -> truthy (get_field meta "gqlMutation") = false ->
   custom client_query client_mutation onT filters meta =
     ([], Rejected (JObj [("message", JStr "Query or mutation is required for custom operation");
                          ("statusCode", JNum 400)]))).
Proof.
  split; intros Hq Hm; unfold custom, custom_body; rewrite Hq, Hm; reflexivity.
Qed.

(** ** A [meta.fields] that is not an array *)

(** [meta.fields || ['id']] is not an array: [fields.join] throws. *)
Definition fields_not_array (meta : jsval) : bool :=
  match js_or (get_field meta "fields") (JArr [JStr "id"]) with
  | JArr _ => false
  | _ => true
  end.

Lemma join_fields_not_array meta :
  fields_not_array meta = true ->
  exists msg, join_fields (js_or (get_field meta "fields") (JArr [JStr "id"])) =
                throw (type_error msg) /\ msg <> "".
Proof.
  unfold fields_not_array, join_fields.
  destruct (js_or _ _); try discriminate; intros _; eexists; split;
    (reflexivity || discriminate).
Qed.


(** When [meta.fields] is given but is not an array (a string, a number, an
    object), every operation that synthesises a document ([getList]
    without [meta.gqlQuery], [getOne], [create] and [update] without
    [meta.gqlMutation], [createMany]) rejects with the [TypeError]'s
    message and statusCode 500, before it calls the transport: the result
    is the same whatever the transport would answer, and no callback is
    invoked.  In [getList] the filters are compiled first, so this holds
    when they compile. *)
Theorem non_array_fields_rejected meta :
  fields_not_array meta = true ->
  exists msg, forall plural singular client_query client_mutation onT resource id variables,
    let rej := ([], Rejected (JObj [("message", JStr msg); ("statusCode", JNum 500)])) in
    getOne singular client_query onT resource id meta = rej /\
    createMany singular client_mutation onT resource variables meta = rej /\
    (truthy (get_field meta "gqlMutation") = false ->
     create singular client_mutation onT resource variables meta = rej /\
     update singular client_mutation onT resource id variables meta = rej) /\
    (forall filters sorters pagination c,
       truthy (get_field meta "gqlQuery") = false ->
       compile_filters filters = ([], Ok c) ->
       getList plural client_query onT resource filters sorters pagination meta = rej).
Proof.
  intro H. destruct (join_fields_not_array meta H) as [msg [Hj Hm]].
  exists msg. intros. cbv zeta. split; [|split; [|split]].
  - unfold getOne, getOne_body. cbv zeta. rewrite Hj.
    unfold run_op, throw, bind. rewrite boundary_type_error by exact Hm. reflexivity.
  - unfold createMany, createMany_body. cbv zeta. rewrite Hj.
    unfold run_op, throw, bind. rewrite boundary_type_error by exact Hm. reflexivity.
  - intro Hg. split.
    + unfold create, create_body, create_synth. rewrite Hg. cbv zeta. rewrite Hj.
      unfold try_catch, throw, bind. rewrite catch_clause_type_error by exact Hm.
      reflexivity.
    + unfold update, update_body. rewrite Hg. cbv zeta. rewrite Hj.
      unfold run_op, throw, bind. rewrite boundary_type_error by exact Hm. reflexivity.
  - intros filters sorters pagination c Hq Hc.
    unfold getList, getList_body. rewrite Hq. unfold getList_request. cbv zeta.
    rewrite Hc, bind_ret, Hj. unfold throw at 1, bind at 2. unfold bind at 1.
    unfold run_op. rewrite boundary_type_error by exact Hm. reflexivity.
Qed.

Lemma non_array_fields_rejected_witness :
  fields_not_array (JObj [("fields", JStr "name")]) = true /\
  getOne (fun s => s) (fun _ _ => Ok {| r_error := None; r_data := JNull |}) true
    "product" (JStr "p1") (JObj [("fields", JStr "name")]) =
    ([], Rejected (JObj [("message", JStr "fields.join is not a function");
                         ("statusCode", JNum 500)])).
Proof.
  split; [reflexivity|].
  destruct (non_array_fields_rejected (JObj [("fields", JStr "name")]) eq_refl) as [msg Hall].
  destruct (Hall (fun s => s) (fun s => s) (fun _ _ => Ok {| r_error := None; r_data := JNull |})
              (fun _ _ => Ok {| r_error := None; r_data := JNull |}) true "product" (JStr "p1") JUndef)
    as [H1 _].
  rewrite H1. f_equal. f_equal. vm_compute in H1. injection H1 as E. rewrite <- E. reflexivity.
Defined.

(** ** The result key of [deleteOne] and [update] *)

Lemma append_cancel_l (a b c : string) : a ++ b = a ++ c -> b = c.
Proof. induction a as [|ch a IH]; simpl; [auto|]. intro H. injection H. exact IH. Qed.

Lemma eqb_append_l (a b c : string) : b <> c -> String.eqb (a ++ b) (a ++ c) = false.
Proof.
  intro H. apply String.eqb_neq. intro E. apply H. exact (append_cancel_l _ _ _ E).
Qed.

Lemma join_fields_array meta :
  fields_not_array meta = false ->
  exists t, join_fields (js_or (get_field meta "fields") (JArr [JStr "id"])) = ([], Ok t).
Proof.
  unfold fields_not_array, join_fields. destruct (js_or _ _); try discriminate.
  intros _. eexists. reflexivity.
Qed.

(** The synthesised [deleteOne] and [update] documents select
    [delete<Singular>] and [update<Singular>] (from
    [pluralize.singular(resource)]), but the result is read from
    [data['delete' + Resource]] and [data['update' + Resource]] with the
    resource name as given.  When the two names differ (a plural resource
    such as [products]), a backend that answers the selected field makes
    the operation resolve with [{data: {}}], whatever record it returned. *)
Theorem mutation_result_read_under_resource_name singular onT resource id variables meta x :
  capitalize (singular resource) <> capitalize resource ->
  deleteOne singular
    (fun _ _ => Ok {| r_error := None;
                      r_data := JObj [("delete" ++ capitalize (singular resource), x)] |})
    onT resource id = ([], Resolved (JObj [("data", JObj [])])) /\
  (truthy (get_field meta "gqlMutation") = false -> fields_not_array meta = false ->
   is_nullish variables = false ->
   update singular
     (fun _ _ => Ok {| r_error := None;
                       r_data := JObj [("update" ++ capitalize (singular resource), x)] |})
     onT resource id variables meta = ([], Resolved (JObj [("data", JObj [])]))).
Proof.
  intro Hn. split.
  - unfold deleteOne, deleteOne_body. cbv zeta. unfold await_ at 1. rewrite bind_ret.
    cbn [r_error r_data]. unfold data_errors_check. cbn [get_field assoc_get].
    replace ("errors" =? "delete" ++ capitalize (singular resource)) with false by reflexivity.
    cbn [assoc_get]. unfold ret at 1. rewrite bind_ret.
    rewrite eqb_append_l by congruence. reflexivity.
  - intros Hg Hf Hv. destruct (join_fields_array meta Hf) as [t Ht].
    unfold update, update_body. rewrite Hg. cbv zeta. rewrite Ht, bind_ret, Hv.
    unfold await_ at 1. rewrite bind_ret. cbn [r_error r_data get_field assoc_get].
    rewrite eqb_append_l by congruence. reflexivity.
Qed.

Lemma mutation_result_read_under_resource_name_witness :
  capitalize ((fun s => if String.eqb s "products" then "product" else s) "products")
    <> capitalize "products" /\
  deleteOne (fun s => if String.eqb s "products" then "product" else s)
    (fun _ _ => Ok {| r_error := None;
                      r_data := JObj [("deleteProduct", JObj [("response", JStr "ok")])] |})
    false "products" (JStr "p1") = ([], Resolved (JObj [("data", JObj [])])).
Proof.
  split; [discriminate|].
  exact (proj1 (mutation_result_read_under_resource_name
                  (fun s => if String.eqb s "products" then "product" else s) false "products"
                  (JStr "p1") JUndef JUndef (JObj [("response", JStr "ok")]) ltac:(discriminate))).
Defined.

(** ** Missing records *)

(** A successful answer that lacks the selected record is not an error:
    [getOne] resolves with [{data: {}}] when [data[singular]] is null or
    absent, and [createMany] with [{data: []}] when
    [data['upsert' + Name + 'List']] is. *)
Theorem missing_record_resolves_empty singular onT resource id variables meta data :
  fields_not_array meta = false ->
  (is_nullish (get_field data (singular resource)) = true ->
   getOne singular (fun _ _ => Ok {| r_error := None; r_data := data |}) onT resource id meta =
     ([], Resolved (JObj [("data", JObj [])]))) /\
  (is_nullish (get_field data ("upsert" ++ capitalize (singular resource) ++ "List")) = true ->
   createMany singular (fun _ _ => Ok {| r_error := None; r_data := data |}) onT resource variables meta =
     ([], Resolved (JObj [("data", JArr [])]))).
Proof.
  intro Hf. destruct (join_fields_array meta Hf) as [t Ht]. split; intro Hn.
  - unfold getOne, getOne_body. cbv zeta. rewrite Ht, bind_ret.
    unfold await_ at 1. rewrite bind_ret. cbn [r_error r_data].
    unfold js_coalesce. rewrite Hn. reflexivity.
  - unfold createMany, createMany_body. cbv zeta. rewrite Ht, bind_ret.
    unfold await_ at 1. rewrite bind_ret. cbn [r_error r_data].
    unfold js_coalesce. rewrite Hn. reflexivity.
Qed.

Lemma missing_record_resolves_empty_witness :
  fields_not_array (JObj []) = false /\
  is_nullish (get_field (JObj [("product", JNull)]) ((fun s => "product") "products")) = true /\
  getOne (fun s => "product") (fun _ _ => Ok {| r_error := None; r_data := JObj [("product", JNull)] |})
    true "products" (JStr "p1") (JObj []) = ([], Resolved (JObj [("data", JObj [])])).
Proof.
  split; [reflexivity|]. split; [reflexivity|].
  exact (proj1 (missing_record_resolves_empty (fun s => "product") true "products" (JStr "p1")
                  JUndef (JObj []) (JObj [("product", JNull)]) eq_refl) eq_refl).
Defined.

(** ** The payload clean-up of [createMany] *)

Lemma keep_payload_false x :
  keep_payload x = false <-> In x [JUndef; JNull; JObj []; JArr []].
Proof.
  split.
  - destruct x as [| | b | z | s | l | kvs]; simpl; intro H; try discriminate; auto.
    + destruct l; [auto|discriminate].
    + destruct kvs; [auto|discriminate].
  - simpl. intros [<-|[<-|[<-|[<-|[]]]]]; reflexivity.
Qed.

Lemma filter_id {A} (f : A -> bool) l : filter f l = l <-> Forall (fun x => f x = true) l.
Proof.
  split.
  - intro H. apply Forall_forall. intros x Hx. rewrite <- H in Hx.
    apply filter_In in Hx. apply Hx.
  - induction 1 as [|x l Hx _ IH]; [reflexivity|]. simpl. rewrite Hx, IH. reflexivity.
Qed.

(** [createMany] never sends [null], [undefined], [{}] or [[]] entries of
    its payload array: inserting such an entry anywhere in the array does
    not change what it sends or how it settles.  Every other entry is kept
    in place (including [0], [''] and [false]): an array free of those four
    values is sent unchanged. *)
Theorem createMany_drops_empty_payloads singular client_mutation onT resource meta :
  (forall l1 l2 x, In x [JUndef; JNull; JObj []; JArr []] ->
     createMany singular client_mutation onT resource (JArr (l1 ++ x :: l2)) meta =
     createMany singular client_mutation onT resource (JArr (l1 ++ l2)) meta) /\
  (forall l, clean_payloads (JArr l) = JArr l <->
             Forall (fun x => ~ In x [JUndef; JNull; JObj []; JArr []]) l).
Proof.
  split.
  - intros l1 l2 x Hx. apply keep_payload_false in Hx.
    assert (E : clean_payloads (JArr (l1 ++ x :: l2)) = clean_payloads (JArr (l1 ++ l2))).
    { simpl. rewrite !filter_app. simpl. rewrite Hx. reflexivity. }
    unfold createMany, createMany_body. cbv zeta. rewrite E. reflexivity.
  - intro l. simpl. split.
    + intro H. injection H as H. apply filter_id in H.
      eapply Forall_impl; [|exact H]. intros x Hx Hin.
      apply keep_payload_false in Hin. congruence.
    + intro H. f_equal. apply filter_id.
      eapply Forall_impl; [|exact H]. intros x Hx.
      destruct (keep_payload x) eqn:E; [reflexivity|]. apply keep_payload_false in E.
      exfalso. exact (Hx E).
Qed.

(** ** The [where] of [custom] *)

(** When [custom] is given filters (an array, even an empty one), the
    [where] it compiles replaces [meta.gqlVariables.where] as a whole;
    the other variables are passed on unchanged (when [payloads] is not a
    keyed object).  Without filters, [meta.gqlVariables] is sent as is. *)
Theorem custom_filters_replace_where meta kvs :
  get_field meta "gqlVariables" = JObj kvs ->
  (match assoc_get kvs "payloads" with JObj _ => false | _ => true end) = true ->
  custom_variables None meta = ([], Ok (JObj kvs)) /\
  forall fs w, foldM custom_where_step fs [] = ([], Ok w) ->
    exists kvs', custom_variables (Some fs) meta = ([], Ok (JObj kvs')) /\
      assoc_get kvs' "where" = JObj w /\
      forall k, k <> "where" -> assoc_get kvs' k = assoc_get kvs k.
Proof.
  intros Hv Hp. split.
  - unfold custom_variables. rewrite Hv. unfold ret at 1. rewrite bind_ret.
    cbn [get_field]. destruct (assoc_get kvs "payloads"); try discriminate; reflexivity.
  - intros fs w Hw. exists (set_prop kvs "where" (JObj w)).
    unfold custom_variables. rewrite Hv, Hw, bind_ret. unfold ret at 1. rewrite bind_ret.
    cbn [get_field spread_props]. rewrite assoc_get_set_prop. cbn [String.eqb].
    split; [destruct (assoc_get kvs "payloads"); try discriminate; reflexivity|].
    split.
    + rewrite assoc_get_set_prop, String.eqb_refl. reflexivity.
    + intros k Hk. rewrite assoc_get_set_prop. apply String.eqb_neq in Hk. rewrite Hk. reflexivity.
Qed.

Lemma custom_filters_replace_where_witness :
  custom_variables (Some [])
    (JObj [("gqlVariables", JObj [("where", JObj [("name", JObj [("eq", JStr "x")])]);
                                  ("limit", JNum 5)])]) =
    ([], Ok (JObj [("where", JObj []); ("limit", JNum 5)])).
Proof.
  destruct (custom_filters_replace_where
              (JObj [("gqlVariables", JObj [("where", JObj [("name", JObj [("eq", JStr "x")])]);
                                           ("limit", JNum 5)])])
              [("where", JObj [("name", JObj [("eq", JStr "x")])]); ("limit", JNum 5)]
              eq_refl eq_refl) as [_ H].
  destruct (H [] [] eq_refl) as [kvs' [E _]]. rewrite E. vm_compute in E.
  injection E as <-. reflexivity.
Defined.

(** ** The operation boundary, operation by operation *)

(** The rejection the contract of the boundary prescribes for a thrown
    value that is neither [null] nor [undefined]: the value itself when its
    [statusCode] is defined, else [{message: error.message || dflt,
    statusCode: 500}]. *)
Definition boundary_as_specified (dflt : string) (error : jsval) : outcome :=
  if is_undef (get_field error "statusCode") then
    Rejected (JObj [("message", js_or (get_field error "message") (JStr dflt));
                    ("statusCode", JNum 500)])
  else Rejected error.

Lemma catch_clause_spec dflt e :
  is_nullish e = false -> catch_clause dflt e = Ok (boundary_as_specified dflt e).
Proof.
  intro H. unfold catch_clause, boundary_as_specified. rewrite H.
  destruct (is_undef _); reflexivity.
Qed.

Lemma run_op_throw_spec dflt log e :
  is_nullish e = false -> run_op dflt (log, Throw e) = (log, boundary_as_specified dflt e).
Proof.
  intro H. unfold run_op, catch_boundary. rewrite (catch_clause_spec dflt e H). reflexivity.
Qed.

Lemma run_op_classified dflt ce cb :
  run_op dflt (reject_classified ce cb) =
    (fst (handleGraphQLError (Some ce) cb),
     Rejected (http_js (snd (handleGraphQLError (Some ce) cb)))).
Proof. unfold reject_classified. destruct (handleGraphQLError _ _). reflexivity. Qed.

Ltac transport_step :=
  repeat first
    [ progress cbv beta zeta
    | rewrite bind_ret
    | rewrite bind_throw
    | progress unfold await_ ].

(** C2 (amended): every public operation, [getList], [getOne], [create],
    [createMany], [update], [deleteOne] and [custom], ends in the same
    boundary.  When the transport rejects with a value that is not
    [null] or [undefined], the operation rejects with that value if its
    [statusCode] is defined (numeric or not), and with
    [{message: error.message || <default>, statusCode: 500}] otherwise,
    with the operation's own default text.  When the transport answers
    with an error, the rejection the body builds from
    [handleGraphQLError] passes through unchanged.  Each case assumes the
    operation gets as far as the transport: its document can be built
    ([meta.fields] an array, the filters and sorters of [getList]
    compile, [variables] not nullish for [create] and [update]) and
    [custom] has exactly one document. *)
Theorem operation_boundary :
  (forall plural onT r f s p m e,
     is_nullish e = false ->
     truthy (get_field m "gqlQuery") = true \/
       (exists qv, getList_request plural r f s p m = ([], Ok qv)) ->
     getList plural (fun _ _ => Throw e) onT r f s p m =
       ([], boundary_as_specified "Failed to fetch list data" e) /\
     forall resp ce,
       r_error resp = Some ce ->
       getList plural (fun _ _ => Ok resp) onT r f s p m =
         (fst (handleGraphQLError (Some ce) onT),
          Rejected (http_js (snd (handleGraphQLError (Some ce) onT))))) /\
  (forall singular onT r i m e,
     is_nullish e = false -> fields_not_array m = false ->
     getOne singular (fun _ _ => Throw e) onT r i m =
       ([], boundary_as_specified ("Failed to fetch " ++ r ++ " with id " ++ to_str i) e) /\
     forall resp ce,
       r_error resp = Some ce ->
       getOne singular (fun _ _ => Ok resp) onT r i m =
         (fst (handleGraphQLError (Some ce) onT),
          Rejected (http_js (snd (handleGraphQLError (Some ce) onT))))) /\
  (forall singular onT r v m e,
     is_nullish e = false ->
     truthy (get_field m "gqlMutation") = true \/
       (fields_not_array m = false /\ is_nullish v = false) ->
     create singular (fun _ _ => Throw e) onT r v m =
       ([], boundary_as_specified ("Failed to create " ++ r) e) /\
     forall resp ce,
       r_error resp = Some ce ->
       let cb := if truthy (get_field m "gqlMutation") then false else onT in
       create singular (fun _ _ => Ok resp) onT r v m =
         (fst (handleGraphQLError (Some ce) cb),
          Rejected (http_js (snd (handleGraphQLError (Some ce) cb))))) /\
  (forall singular onT r v m e,
     is_nullish e = false -> fields_not_array m = false ->
     createMany singular (fun _ _ => Throw e) onT r v m =
       ([], boundary_as_specified ("Failed to create multiple " ++ r ++ " records") e) /\
     forall resp ce,
       r_error resp = Some ce ->
       createMany singular (fun _ _ => Ok resp) onT r v m =
         (fst (handleGraphQLError (Some ce) onT),
          Rejected (http_js (snd (handleGraphQLError (Some ce) onT))))) /\
  (forall singular onT r i v m e,
     is_nullish e = false ->
     truthy (get_field m "gqlMutation") = true \/
       (fields_not_array m = false /\ is_nullish v = false) ->
     update singular (fun _ _ => Throw e) onT r i v m =
       ([], boundary_as_specified ("Failed to update " ++ r ++ " with id " ++ to_str i) e) /\
     forall resp ce,
       r_error resp = Some ce ->
       let cb := if truthy (get_field m "gqlMutation") then false else onT in
       update singular (fun _ _ => Ok resp) onT r i v m =
         (fst (handleGraphQLError (Some ce) cb),
          Rejected (http_js (snd (handleGraphQLError (Some ce) cb))))) /\
  (forall singular onT r i e,
     is_nullish e = false ->
     deleteOne singular (fun _ _ => Throw e) onT r i =
       ([], boundary_as_specified ("Failed to delete " ++ r ++ " with id " ++ to_str i) e) /\
     forall resp ce,
       r_error resp = Some ce ->
       deleteOne singular (fun _ _ => Ok resp) onT r i =
         (fst (handleGraphQLError (Some ce) onT),
          Rejected (http_js (snd (handleGraphQLError (Some ce) onT))))) /\
  (forall onT f m e vars,
     is_nullish e = false ->
     xorb (truthy (get_field m "gqlQuery")) (truthy (get_field m "gqlMutation")) = true ->
     custom_variables f m = ([], Ok vars) ->
     custom (fun _ _ => Throw e) (fun _ _ => Throw e) onT f m =
       ([], boundary_as_specified "Failed to execute custom operation" e) /\
     forall resp ce,
       r_error resp = Some ce ->
       custom (fun _ _ => Ok resp) (fun _ _ => Ok resp) onT f m =
         (fst (handleGraphQLError (Some ce) onT),
          Rejected (http_js (snd (handleGraphQLError (Some ce) onT))))).
Proof.
  split; [|split; [|split; [|split; [|split; [|split]]]]].
  - (* getList *)
    intros plural onT r f s p m e He Hpath. unfold getList, getList_body.
    destruct Hpath as [Hq|[[q v] Hreq]].
    + rewrite Hq. split.
      * transport_step. apply run_op_throw_spec; exact He.
      * intros resp ce Hr. transport_step. rewrite Hr. apply run_op_classified.
    + destruct (truthy (get_field m "gqlQuery")) eqn:Hq.
      * split.
        -- transport_step. apply run_op_throw_spec; exact He.
        -- intros resp ce Hr. transport_step. rewrite Hr. apply run_op_classified.
      * rewrite Hreq. split.
        -- transport_step. apply run_op_throw_spec; exact He.
        -- intros resp ce Hr. transport_step. rewrite Hr. apply run_op_classified.
  - (* getOne *)
    intros singular onT r i m e He Hf. unfold getOne, getOne_body.
    destruct (join_fields_array m Hf) as [t Ht]. cbv zeta. rewrite Ht. split.
    + transport_step. apply run_op_throw_spec; exact He.
    + intros resp ce Hr. transport_step. rewrite Hr. apply run_op_classified.
  - (* create *)
    intros singular onT r v m e He Hpath. unfold create, create_body.
    destruct (truthy (get_field m "gqlMutation")) eqn:Hg.
    + unfold raw_mutation. split.
      * transport_step. apply run_op_throw_spec; exact He.
      * intros resp ce Hr. transport_step. rewrite Hr. apply run_op_classified.
    + destruct Hpath as [Hpath|[Hf Hv]]; [discriminate|].
      destruct (join_fields_array m Hf) as [t Ht]. unfold create_synth. cbv zeta.
      rewrite Ht. split.
      * transport_step. rewrite Hv. transport_step. unfold try_catch.
        rewrite (catch_clause_spec _ e He). reflexivity.
      * intros resp ce Hr. transport_step. rewrite Hv. transport_step. rewrite Hr.
        unfold reject_classified. destruct (handleGraphQLError _ _). reflexivity.
  - (* createMany *)
    intros singular onT r v m e He Hf. unfold createMany, createMany_body.
    destruct (join_fields_array m Hf) as [t Ht]. cbv zeta. rewrite Ht. split.
    + transport_step. apply run_op_throw_spec; exact He.
    + intros resp ce Hr. transport_step. rewrite Hr. apply run_op_classified.
  - (* update *)
    intros singular onT r i v m e He Hpath. unfold update, update_body.
    destruct (truthy (get_field m "gqlMutation")) eqn:Hg.
    + unfold raw_mutation. split.
      * transport_step. apply run_op_throw_spec; exact He.
      * intros resp ce Hr. transport_step. rewrite Hr. apply run_op_classified.
    + destruct Hpath as [Hpath|[Hf Hv]]; [discriminate|].
      destruct (join_fields_array m Hf) as [t Ht]. cbv zeta. rewrite Ht. split.
      * transport_step. rewrite Hv. transport_step. apply run_op_throw_spec; exact He.
      * intros resp ce Hr. transport_step. rewrite Hv. transport_step. rewrite Hr.
        apply run_op_classified.
  - (* deleteOne *)
    intros singular onT r i e He. unfold deleteOne, deleteOne_body. split.
    + transport_step. apply run_op_throw_spec; exact He.
    + intros resp ce Hr. transport_step. rewrite Hr. apply run_op_classified.
  - (* custom *)
    intros onT f m e vars He Hx Hv. unfold custom, custom_body. cbv zeta.
    destruct (truthy (get_field m "gqlQuery")), (truthy (get_field m "gqlMutation"));
      try discriminate Hx; cbn [andb negb]; rewrite Hv; split;
      try (transport_step; apply run_op_throw_spec; exact He);
      intros resp ce Hr; transport_step; rewrite Hr; apply run_op_classified.
Qed.
